(** * Newsletter form handler (src/js/newsletter.js): validation and rate limiting

    A shallow embedding of the newsletter module of the landing page:
    [isValidEmail] (exported as [window.Newsletter.validateEmail]),
    [validateForm], [checkRateLimit], [handleFormSubmit] and the two halves
    of the asynchronous [submitForm], together with the properties of the
    subscription validator that the specification states about them. *)

From Stdlib Require Import String Ascii Bool NArith ZArith Lia List.
Import ListNotations.

Set Implicit Arguments.

(** ** JavaScript values and strings *)

Module JS.

(** A JavaScript string is a sequence of UTF-16 code units; [length],
    [includes], [split], [trim] and a regular expression without the [u]
    flag all work on code units. *)
Definition code_unit := N.
Definition jsstring := list code_unit.

Definition unit_of (a : ascii) : code_unit := N_of_ascii a.

(** The string written as a source literal. *)
Definition lit (s : string) : jsstring := map unit_of (list_ascii_of_string s).

(** A number, as far as truthiness needs it: NaN, an infinity, or a
    finite binary value with its sign, significand and exponent. *)
Inductive number :=
| NaN
| Infinity (negative : bool)
| Finite (negative : bool) (significand : N) (exponent : Z).

Inductive value :=
| VUndefined
| VNull
| VBoolean (b : bool)
| VNumber (n : number)
| VBigInt (z : Z)
| VString (s : jsstring)
| VSymbol (description : jsstring)
| VObject (callable : bool).

Inductive type_tag :=
| TUndefined | TObject | TBoolean | TNumber | TBigInt | TString | TSymbol | TFunction.

(** [typeof v] *)
Definition typeof (v : value) : type_tag :=
  match v with
  | VUndefined => TUndefined
  | VNull => TObject
  | VBoolean _ => TBoolean
  | VNumber _ => TNumber
  | VBigInt _ => TBigInt
  | VString _ => TString
  | VSymbol _ => TSymbol
  | VObject callable => if callable then TFunction else TObject
  end.

Definition type_tag_eqb (a b : type_tag) : bool :=
  match a, b with
  | TUndefined, TUndefined | TObject, TObject | TBoolean, TBoolean
  | TNumber, TNumber | TBigInt, TBigInt | TString, TString
  | TSymbol, TSymbol | TFunction, TFunction => true
  | _, _ => false
  end.

(** ToBoolean, the conversion behind [!v] and [if (v)]. *)
Definition truthy (v : value) : bool :=
  match v with
  | VUndefined | VNull => false
  | VBoolean b => b
  | VNumber NaN => false
  | VNumber (Infinity _) => true
  | VNumber (Finite _ m _) => negb (m =? 0)%N
  | VBigInt z => negb (z =? 0)%Z
  | VString s => match s with [] => false | _ :: _ => true end
  | VSymbol _ => true
  | VObject _ => true
  end.

(** Errors a piece of code can throw. *)
Inductive error :=
| TypeError
| Rejection.

(** The way an evaluation ends: with a value, or with a thrown error. *)
Inductive completion (A : Type) :=
| Normal (a : A)
| Throw (e : error).
Arguments Throw {A} e.

Definition cbind {A B} (c : completion A) (k : A -> completion B) : completion B :=
  match c with
  | Normal a => k a
  | Throw e => Throw e
  end.

(** *** String methods *)

(** WhiteSpace and LineTerminator code units, the ones [trim] strips. *)
Definition is_whitespace (c : code_unit) : bool :=
  ((9 <=? c) && (c <=? 13) || (c =? 32) || (c =? 160) || (c =? 5760)
   || (8192 <=? c) && (c <=? 8202) || (c =? 8232) || (c =? 8233)
   || (c =? 8239) || (c =? 8287) || (c =? 12288) || (c =? 65279))%N.

Fixpoint trimStart (s : jsstring) : jsstring :=
  match s with
  | [] => []
  | c :: rest => if is_whitespace c then trimStart rest else s
  end.

Definition trimEnd (s : jsstring) : jsstring := rev (trimStart (rev s)).

(** [s.trim()] *)
Definition trim (s : jsstring) : jsstring := trimEnd (trimStart s).

(** [s.startsWith(sub)] at position 0. *)
Fixpoint startsWith (s sub : jsstring) {struct sub} : bool :=
  match sub, s with
  | [], _ => true
  | _ :: _, [] => false
  | a :: sub', b :: s' => (a =? b)%N && startsWith s' sub'
  end.

(** [s.includes(sub)] *)
Fixpoint includes (s sub : jsstring) : bool :=
  startsWith s sub ||
  match s with
  | [] => false
  | _ :: s' => includes s' sub
  end.

(** [s.split(sep)] for a separator of one code unit: the pieces between
    the occurrences of [sep], at least one piece. *)
Fixpoint split (s : jsstring) (sep : code_unit) : list jsstring :=
  match s with
  | [] => [[]]
  | c :: rest =>
      if (c =? sep)%N then [] :: split rest sep
      else match split rest sep with
           | piece :: pieces => (c :: piece) :: pieces
           | [] => [[c]]
           end
  end.

(** [a[i].length] for an array of strings: reading [length] off the
    [undefined] that an index out of range gives throws a TypeError. *)
Definition length_at (a : list jsstring) (i : nat) : completion nat :=
  match nth_error a i with
  | Some piece => Normal (length piece)
  | None => Throw TypeError
  end.

End JS.

(** ** Regular expressions *)

Module Regex.
Import JS.

(** The fragment of the pattern language that [EMAIL_REGEX] uses.  A
    character class is a list of inclusive ranges of code units. *)
Inductive regex :=
| Empty
| Eps
| Class (ranges : list (code_unit * code_unit))
| Seq (r1 r2 : regex)
| Alt (r1 r2 : regex)
| Star (r : regex).

Definition in_class (ranges : list (code_unit * code_unit)) (c : code_unit) : bool :=
  existsb (fun range => (fst range <=? c)%N && (c <=? snd range)%N) ranges.

(** [r+], [r?] and [r{0,n}] *)
Definition Plus (r : regex) : regex := Seq r (Star r).
Definition Opt (r : regex) : regex := Alt r Eps.
Fixpoint Upto (n : nat) (r : regex) : regex :=
  match n with
  | O => Eps
  | S n' => Opt (Seq r (Upto n' r))
  end.

(** The strings a pattern matches, from its first to its last code unit. *)
Inductive matches : regex -> jsstring -> Prop :=
| MEps : matches Eps []
| MClass ranges c : in_class ranges c = true -> matches (Class ranges) [c]
| MSeq r1 r2 s1 s2 : matches r1 s1 -> matches r2 s2 -> matches (Seq r1 r2) (s1 ++ s2)
| MAltL r1 r2 s : matches r1 s -> matches (Alt r1 r2) s
| MAltR r1 r2 s : matches r2 s -> matches (Alt r1 r2) s
| MStarNil r : matches (Star r) []
| MStarApp r s1 s2 : matches r s1 -> matches (Star r) s2 -> matches (Star r) (s1 ++ s2).

(** Matching by derivatives. *)
Fixpoint nullable (r : regex) : bool :=
  match r with
  | Empty => false
  | Eps => true
  | Class _ => false
  | Seq r1 r2 => nullable r1 && nullable r2
  | Alt r1 r2 => nullable r1 || nullable r2
  | Star _ => true
  end.

Definition mkSeq (r1 r2 : regex) : regex :=
  match r1, r2 with
  | Empty, _ => Empty
  | _, Empty => Empty
  | Eps, _ => r2
  | _, _ => Seq r1 r2
  end.

Definition mkAlt (r1 r2 : regex) : regex :=
  match r1, r2 with
  | Empty, _ => r2
  | _, Empty => r1
  | _, _ => Alt r1 r2
  end.

Fixpoint deriv (c : code_unit) (r : regex) : regex :=
  match r with
  | Empty => Empty
  | Eps => Empty
  | Class ranges => if in_class ranges c then Eps else Empty
  | Seq r1 r2 =>
      if nullable r1 then mkAlt (mkSeq (deriv c r1) r2) (deriv c r2)
      else mkSeq (deriv c r1) r2
  | Alt r1 r2 => mkAlt (deriv c r1) (deriv c r2)
  | Star r1 => mkSeq (deriv c r1) (Star r1)
  end.

(** [/^r$/.test(s)] for a pattern without flags. *)
Definition test (r : regex) (s : jsstring) : bool :=
  nullable (fold_left (fun r' c => deriv c r') s r).

End Regex.

(** ** The newsletter module *)

Module Newsletter.
Import JS Regex.

Local Open Scope char_scope.

Definition chr (a : ascii) : code_unit * code_unit := (unit_of a, unit_of a).
Definition range (a b : ascii) : code_unit * code_unit := (unit_of a, unit_of b).

(** [[a-zA-Z0-9.!#$%&'*+/=?^_`{|}~-]] *)
Definition local_class : list (code_unit * code_unit) :=
  [range "a" "z"; range "A" "Z"; range "0" "9"; chr "."; chr "!"; chr "#";
   chr "$"; chr "%"; chr "&"; chr "'"; chr "*"; chr "+"; chr "/"; chr "=";
   chr "?"; chr "^"; chr "_"; chr "`"; chr "{"; chr "|"; chr "}"; chr "~";
   chr "-"].

(** [[a-zA-Z0-9]] *)
Definition alnum_class : list (code_unit * code_unit) :=
  [range "a" "z"; range "A" "Z"; range "0" "9"].

(** [[a-zA-Z0-9-]] *)
Definition alnum_hyphen_class : list (code_unit * code_unit) :=
  [range "a" "z"; range "A" "Z"; range "0" "9"; chr "-"].

(** [[a-zA-Z0-9](?:[a-zA-Z0-9-]{0,61}[a-zA-Z0-9])?] *)
Definition label_regex : regex :=
  Seq (Class alnum_class)
      (Opt (Seq (Upto 61 (Class alnum_hyphen_class)) (Class alnum_class))).

(** [EMAIL_REGEX], between its [^] and [$]:
    [[local]+@label(?:\.label)*] *)
Definition EMAIL_REGEX : regex :=
  Seq (Plus (Class local_class))
      (Seq (Class [chr "@"])
           (Seq label_regex
                (Star (Seq (Class [chr "."]) label_regex)))).

Local Close Scope char_scope.

(** [isValidEmail(email)], exported as [window.Newsletter.validateEmail].
    The string methods are applied to strings only; past the guard the
    embedding throws on any other value. *)
Definition isValidEmail (email : value) : completion bool :=
  if negb (truthy email) || negb (type_tag_eqb (typeof email) TString) then
    Normal false
  else
    match email with
    | VString s =>
        (* Check length constraints *)
        if (254 <? length s)%nat then Normal false
        (* Check format with regex *)
        else if negb (test EMAIL_REGEX s) then Normal false
        (* Additional validation: check for consecutive dots *)
        else if includes s (lit "..") then Normal false
        else
          (* Check local part length (before @) *)
          cbind (length_at (split s (unit_of "@"%char)) 0) (fun localPartLength =>
          if (64 <? localPartLength)%nat then Normal false
          else Normal true)
    | _ => Throw TypeError
    end.

(** The public name: [window.Newsletter.validateEmail]. *)
Definition validateEmail : value -> completion bool := isValidEmail.

(** *** Messages *)

(** The keys of [ERROR_MESSAGES]. *)
Inductive error_message :=
| INVALID_EMAIL
| EMPTY_EMAIL
| PRIVACY_NOT_ACCEPTED
| RATE_LIMIT
| NETWORK_ERROR
| GENERIC_ERROR
| ALREADY_SUBSCRIBED.

Definition ERROR_MESSAGES (key : error_message) : jsstring :=
  match key with
  | INVALID_EMAIL => lit "Please enter a valid email address"
  | EMPTY_EMAIL => lit "Email address is required"
  | PRIVACY_NOT_ACCEPTED => lit "Please accept the privacy policy to continue"
  | RATE_LIMIT => lit "Too many submission attempts. Please try again later"
  | NETWORK_ERROR => lit "Unable to submit. Please check your connection and try again"
  | GENERIC_ERROR => lit "An error occurred. Please try again"
  | ALREADY_SUBSCRIBED => lit "This email is already subscribed to our newsletter"
  end.

Definition SUBSCRIPTION_SUCCESS : jsstring :=
  lit "Thank you for subscribing! Check your email to confirm your subscription.".

(** *** State *)

(** The module's [state] object.  Times are milliseconds since the epoch,
    as [Date.now()] gives them. *)
Record state := mkState {
  isInitialized : bool;
  isSubmitting : bool;
  lastSubmissionTime : Z;
  submissionCount : Z;
  rateLimitWindow : Z;
  maxSubmissionsPerWindow : Z
}.

Definition initial_state : state :=
  {| isInitialized := false;
     isSubmitting := false;
     lastSubmissionTime := 0;
     submissionCount := 0;
     rateLimitWindow := 60000;
     maxSubmissionsPerWindow := 3 |}.

Definition set_isSubmitting (b : bool) (s : state) : state :=
  {| isInitialized := isInitialized s;
     isSubmitting := b;
     lastSubmissionTime := lastSubmissionTime s;
     submissionCount := submissionCount s;
     rateLimitWindow := rateLimitWindow s;
     maxSubmissionsPerWindow := maxSubmissionsPerWindow s |}.

Definition set_lastSubmissionTime (t : Z) (s : state) : state :=
  {| isInitialized := isInitialized s;
     isSubmitting := isSubmitting s;
     lastSubmissionTime := t;
     submissionCount := submissionCount s;
     rateLimitWindow := rateLimitWindow s;
     maxSubmissionsPerWindow := maxSubmissionsPerWindow s |}.

Definition set_submissionCount (n : Z) (s : state) : state :=
  {| isInitialized := isInitialized s;
     isSubmitting := isSubmitting s;
     lastSubmissionTime := lastSubmissionTime s;
     submissionCount := n;
     rateLimitWindow := rateLimitWindow s;
     maxSubmissionsPerWindow := maxSubmissionsPerWindow s |}.

(** What [validateForm] reads off the cached elements: the value of the
    email input, and the privacy checkbox when the page has one. *)
Record form := mkForm {
  emailValue : jsstring;
  privacyCheckbox : option bool
}.

(** The [data] of a valid form. *)
Record subscription := mkSubscription {
  email : jsstring;
  timestamp : Z;
  source : jsstring
}.

(** [{isValid: false, error}] or [{isValid: true, data}] *)
Inductive validation :=
| Invalid (error : error_message)
| Valid (data : subscription).

(** [validateForm()], with the reading of [Date.now()] it takes. *)
Definition validateForm (f : form) (now : Z) : completion validation :=
  let email := trim (emailValue f) in
  (* Check if email is empty *)
  if negb (truthy (VString email)) then Normal (Invalid EMPTY_EMAIL)
  else
    (* Validate email format *)
    cbind (isValidEmail (VString email)) (fun valid =>
    if negb valid then Normal (Invalid INVALID_EMAIL)
    else
      (* Check privacy checkbox if present *)
      match privacyCheckbox f with
      | Some false => Normal (Invalid PRIVACY_NOT_ACCEPTED)
      | _ =>
          Normal (Valid {| email := email;
                           timestamp := now;
                           source := lit "landing_page" |})
      end).

(** [checkRateLimit()], with the reading of [Date.now()] it takes: the
    answer and the state it leaves. *)
Definition checkRateLimit (now : Z) (s : state) : bool * state :=
  let timeSinceLastSubmission := (now - lastSubmissionTime s)%Z in
  (* Reset counter if outside window *)
  let s :=
    if (rateLimitWindow s <? timeSinceLastSubmission)%Z
    then set_submissionCount 0 s
    else s in
  (* Check if limit exceeded *)
  if (maxSubmissionsPerWindow s <=? submissionCount s)%Z then (false, s)
  else (true, s).

(** *** The page around the state *)

(** What the transport answers: [{success, message?, subscriptionId?, error?}]. *)
Record response := mkResponse {
  success : bool;
  message : option jsstring;
  subscriptionId : option jsstring;
  error : option jsstring
}.

(** The promise of the transport settles with a response, or rejects. *)
Inductive settlement :=
| Resolved (r : response)
| Rejected.

(** The calls the handlers make into the page and the analytics sink. *)
Inductive ui_call :=
| ClearMessages
| ShowError (text : jsstring)
| ShowSuccess (text : jsstring)
| FocusFirstError
| FocusSuccessMessage
| SetSubmittingState (submitting : bool)
| FormReset
| RemoveValidationState
| TrackMetric (eventName : jsstring) (detail : option jsstring).

(** The module state, the transport calls that have not settled yet, and
    the calls made into the page so far (latest first). *)
Record world := mkWorld {
  st : state;
  pending : list subscription;
  ui : list ui_call
}.

Definition initial_world : world :=
  {| st := initial_state; pending := []; ui := [] |}.

(** Code that runs on the world and ends normally or by throwing; what it
    wrote before a throw stays written. *)
Definition M (A : Type) : Type := world -> completion A * world.

Definition ret {A} (a : A) : M A := fun w => (Normal a, w).

Definition bind {A B} (m : M A) (k : A -> M B) : M B :=
  fun w =>
    match m w with
    | (Normal a, w') => k a w'
    | (Throw e, w') => (Throw e, w')
    end.

Definition throw {A} (e : JS.error) : M A := fun w => (Throw e, w).

Definition lift {A} (c : completion A) : M A := fun w => (c, w).

(** [try { body } catch (error) { handler }] *)
Definition try_catch {A} (body : M A) (handler : JS.error -> M A) : M A :=
  fun w =>
    match body w with
    | (Normal a, w') => (Normal a, w')
    | (Throw e, w') => handler e w'
    end.

(** [try { body } finally { cleanup }] *)
Definition try_finally {A} (body : M A) (cleanup : M unit) : M A :=
  fun w =>
    match body w with
    | (c, w') =>
        match cleanup w' with
        | (Normal _, w'') => (c, w'')
        | (Throw e, w'') => (Throw e, w'')
        end
    end.

Definition on_state {A} (f : state -> A * state) : M A :=
  fun w =>
    let (a, s) := f (st w) in
    (Normal a, {| st := s; pending := pending w; ui := ui w |}).

Definition get_state : M state := fun w => (Normal (st w), w).

Definition modify_state (f : state -> state) : M unit :=
  on_state (fun s => (tt, f s)).

Definition call (c : ui_call) : M unit :=
  fun w => (Normal tt, {| st := st w; pending := pending w; ui := c :: ui w |}).

Declare Scope action_scope.
Delimit Scope action_scope with action.
Notation "x <- m ;; k" := (bind m (fun x => k))
  (at level 61, m at next level, right associativity) : action_scope.
Notation "m ;; k" := (bind m (fun _ => k))
  (at level 61, right associativity) : action_scope.
Local Open Scope action_scope.

(** [a || b] on strings that may be missing. *)
Definition or_else (a : option jsstring) (b : jsstring) : jsstring :=
  match a with
  | Some text => if truthy (VString text) then text else b
  | None => b
  end.

Definition clearMessages : M unit := call ClearMessages.
Definition showError (text : jsstring) : M unit := call (ShowError text).
Definition showSuccess (text : jsstring) : M unit := call (ShowSuccess text).
Definition focusFirstError : M unit := call FocusFirstError.
Definition setSubmittingState (submitting : bool) : M unit :=
  call (SetSubmittingState submitting).
Definition trackMetric (eventName : jsstring) (detail : option jsstring) : M unit :=
  call (TrackMetric eventName detail).

(** [handleSubmissionSuccess(response)] *)
Definition handleSubmissionSuccess (r : response) : M unit :=
  showSuccess (or_else (message r) SUBSCRIPTION_SUCCESS) ;;
  call FormReset ;;
  call RemoveValidationState ;;
  trackMetric (lit "newsletter_signup_success") (subscriptionId r) ;;
  call FocusSuccessMessage.

(** [handleSubmissionError(response)] *)
Definition handleSubmissionError (r : response) : M unit :=
  let errorMessage := or_else (error r) (ERROR_MESSAGES GENERIC_ERROR) in
  showError errorMessage ;;
  trackMetric (lit "newsletter_signup_error") (Some errorMessage) ;;
  focusFirstError.

(** [simulateApiCall(data)] as the caller sees it: a transport call is
    started, and settles later. *)
Definition simulateApiCall (data : subscription) : M unit :=
  fun w => (Normal tt, {| st := st w; pending := pending w ++ [data]; ui := ui w |}).

(** What the timer of [simulateApiCall] resolves the promise with, given
    the outcome of its draw [Math.random() > 0.1] and the decimal digits
    of its reading of [Date.now()]. *)
Definition simulated_settlement (isSuccess : bool) (nowDigits : jsstring) : settlement :=
  if isSuccess then
    Resolved {| success := true;
                message := Some SUBSCRIPTION_SUCCESS;
                subscriptionId := Some (lit "sub_" ++ nowDigits);
                error := None |}
  else
    Resolved {| success := false;
                message := None;
                subscriptionId := None;
                error := Some (ERROR_MESSAGES GENERIC_ERROR) |}.

(** [await promise] once the promise has settled. *)
Definition await (o : settlement) : M response :=
  match o with
  | Resolved r => ret r
  | Rejected => throw Rejection
  end.

(** [submitForm(data)] up to its [await]. *)
Definition submitForm_start (data : subscription) : M unit :=
  modify_state (set_isSubmitting true) ;;
  setSubmittingState true ;;
  simulateApiCall data.

(** [submitForm(data)] from the moment the awaited promise settles, with
    the reading of [Date.now()] it takes. *)
Definition submitForm_resume (o : settlement) (now : Z) : M unit :=
  try_finally
    (try_catch
       (r <- await o ;;
        (* Update rate limiting *)
        modify_state (set_lastSubmissionTime now) ;;
        modify_state (fun s => set_submissionCount (submissionCount s + 1) s) ;;
        if success r then handleSubmissionSuccess r
        else handleSubmissionError r)
       (fun _ =>
          handleSubmissionError {| success := false;
                                   message := None;
                                   subscriptionId := None;
                                   error := Some (ERROR_MESSAGES NETWORK_ERROR) |}))
    (modify_state (set_isSubmitting false) ;;
     setSubmittingState false).

(** [handleFormSubmit(event)], with the readings of [Date.now()] that
    [validateForm] and [checkRateLimit] take. *)
Definition handleFormSubmit (f : form) (t_validate t_check : Z) : M unit :=
  s <- get_state ;;
  if isSubmitting s then ret tt
  else
    try_catch
      ((* Clear previous messages *)
       clearMessages ;;
       (* Validate form *)
       validationResult <- lift (validateForm f t_validate) ;;
       match validationResult with
       | Invalid err =>
           showError (ERROR_MESSAGES err) ;;
           focusFirstError
       | Valid data =>
           (* Check rate limiting *)
           allowed <- on_state (checkRateLimit t_check) ;;
           if negb allowed then showError (ERROR_MESSAGES RATE_LIMIT)
           else
             (* Submit form *)
             submitForm_start data
       end)
      (fun _ => showError (ERROR_MESSAGES GENERIC_ERROR)).

(** *** The page as a transition system *)

(** What happens to the module once it is set up: the form is submitted,
    or the pending transport call settles. *)
Inductive event :=
| FormSubmit (f : form) (t_validate t_check : Z)
| TransportSettles (o : settlement) (now : Z).

Definition step (w : world) (e : event) : option world :=
  match e with
  | FormSubmit f t_validate t_check =>
      Some (snd (handleFormSubmit f t_validate t_check w))
  | TransportSettles o now =>
      match pending w with
      | [] => None
      | _ :: others =>
          Some (snd (submitForm_resume o now
                       {| st := st w; pending := others; ui := ui w |}))
      end
  end.

Fixpoint run (w : world) (events : list event) : option world :=
  match events with
  | [] => Some w
  | e :: rest =>
      match step w e with
      | Some w' => run w' rest
      | None => None
      end
  end.

Definition reachable (w : world) : Prop :=
  exists events, run initial_world events = Some w.

(** A form submission is accepted when it gets as far as the transport. *)
Definition accepted (w : world) (f : form) (t_validate t_check : Z) : bool :=
  (length (pending w) <? length (pending (snd (handleFormSubmit f t_validate t_check w))))%nat.

End Newsletter.

(** ** The specification's vocabulary *)

Module Spec.
Import JS Regex Newsletter.

Definition at_sign : code_unit := unit_of "@"%char.
Definition dot : code_unit := unit_of "."%char.
Definition hyphen : code_unit := unit_of "-"%char.

Fixpoint takeWhile (p : code_unit -> bool) (s : jsstring) : jsstring :=
  match s with
  | [] => []
  | c :: rest => if p c then c :: takeWhile p rest else []
  end.

(** The local part: the substring before the first [@]. *)
Definition local_part (s : jsstring) : jsstring :=
  takeWhile (fun c => negb (c =? at_sign)%N) s.

(** Two consecutive [.] characters somewhere in the string. *)
Definition consecutive_dots (s : jsstring) : Prop :=
  exists before after, s = before ++ dot :: dot :: after.

(** A letter or a digit. *)
Definition is_alnum (c : code_unit) : bool :=
  ((unit_of "a" <=? c) && (c <=? unit_of "z")
   || (unit_of "A" <=? c) && (c <=? unit_of "Z")
   || (unit_of "0" <=? c) && (c <=? unit_of "9"))%N.

(** The characters of a local part; the specification leaves the set to
    the pattern. *)
Definition is_local_char (c : code_unit) : bool := in_class local_class c.

Definition begins_with (c : code_unit) (s : jsstring) : bool :=
  match s with
  | [] => false
  | first :: _ => (first =? c)%N
  end.

Definition ends_with (c : code_unit) (s : jsstring) : bool := begins_with c (rev s).

(** A domain label: 1 to 63 characters, each a letter, a digit or a
    hyphen, the first and the last not a hyphen. *)
Definition valid_label (l : jsstring) : bool :=
  (1 <=? length l)%nat && (length l <=? 63)%nat
  && forallb (fun c => is_alnum c || (c =? hyphen)%N) l
  && negb (begins_with hyphen l) && negb (ends_with hyphen l).

(** Labels separated by [.]. *)
Fixpoint join_dots (labels : list jsstring) : jsstring :=
  match labels with
  | [] => []
  | [l] => l
  | l :: rest => l ++ dot :: join_dots rest
  end.

(** The email grammar: local-part characters, [@], domain labels
    separated by [.]. *)
Definition email_grammar (s : jsstring) : Prop :=
  exists local labels,
    s = local ++ at_sign :: join_dots labels
    /\ local <> [] /\ forallb is_local_char local = true
    /\ labels <> [] /\ forallb valid_label labels = true.

(** The count that a check at [now] goes by: 0 once the window has passed
    since the last submission, the stored count otherwise. *)
Definition count_after_reset (s : state) (now : Z) : Z :=
  if (rateLimitWindow s <? now - lastSubmissionTime s)%Z then 0%Z
  else submissionCount s.

(** The state [submitForm] leaves once the awaited call has settled. *)
Definition settled_state (o : settlement) (now : Z) (s : state) : state :=
  match o with
  | Resolved _ =>
      set_isSubmitting false
        (set_submissionCount (submissionCount s + 1) (set_lastSubmissionTime now s))
  | Rejected => set_isSubmitting false s
  end.

(** What holds of every reachable world: the limits are the configured
    ones, the count stays within them, and the guard is set exactly while
    one transport call is pending; the count is then below the limit. *)
Record invariant (w : world) : Prop := {
  inv_window : rateLimitWindow (st w) = 60000%Z;
  inv_max : maxSubmissionsPerWindow (st w) = 3%Z;
  inv_count : (0 <= submissionCount (st w) <= 3)%Z;
  inv_idle : isSubmitting (st w) = false -> pending w = [];
  inv_busy : isSubmitting (st w) = true ->
             (submissionCount (st w) < 3)%Z /\ exists data, pending w = [data]
}.

End Spec.

(** ** Sample forms, responses and runs *)

Module Examples.
Import JS Newsletter.

Definition valid_form : form := mkForm (lit " user@example.com ") (Some true).

(** The failure response of [simulateApiCall]. *)
Definition failure : settlement := simulated_settlement false (lit "1000").

(** A success response of [simulateApiCall]. *)
Definition ok : settlement := simulated_settlement true (lit "1000").

(** The form is submitted at [t_submit]; the transport call settles with
    [o] at [t_done]. *)
Definition round (o : settlement) (t_submit t_done : Z) : list event :=
  [FormSubmit valid_form t_submit t_submit; TransportSettles o t_done].

Definition world_after (events : list event) : world :=
  match run initial_world events with
  | Some w => w
  | None => initial_world
  end.

Definition failure_response : response :=
  {| success := false; message := None; subscriptionId := None;
     error := Some (ERROR_MESSAGES GENERIC_ERROR) |}.

Definition ok_response : response :=
  {| success := true; message := Some SUBSCRIPTION_SUCCESS;
     subscriptionId := Some (lit "sub_1000"); error := None |}.

(** The worlds after one, two and three failing submissions, resolved at
    1000, 3000 and 5000. *)
Definition failed_once : world :=
  Eval vm_compute in world_after (round failure 0 1000).
Definition failed_twice : world :=
  Eval vm_compute in world_after (round failure 0 1000 ++ round failure 2000 3000).
Definition failed_thrice : world :=
  Eval vm_compute in
    world_after (round failure 0 1000 ++ round failure 2000 3000
                 ++ round failure 4000 5000).

(** The worlds after one, two and three successful submissions, resolved
    at 1000, 21000 and 41000. *)
Definition subscribed_once : world :=
  Eval vm_compute in world_after (round ok 0 1000).
Definition subscribed_twice : world :=
  Eval vm_compute in world_after (round ok 0 1000 ++ round ok 20000 21000).
Definition subscribed_thrice : world :=
  Eval vm_compute in
    world_after (round ok 0 1000 ++ round ok 20000 21000 ++ round ok 40000 41000).

End Examples.

(** ** The page elements the module works on *)

Module Dom.
Import JS Newsletter.

Fixpoint string_eqb (a b : jsstring) : bool :=
  match a, b with
  | [], [] => true
  | x :: a', y :: b' => (x =? y)%N && string_eqb a' b'
  | _, _ => false
  end.

(** What the module reads and writes of an element: its [id], its class
    list, its attributes, its text, [disabled] and [dataset.originalText].
    The module reaches [class], [id], [disabled] and [data-*] through these
    properties only, never through [setAttribute]. *)
Record element := mkElement {
  elementId : jsstring;
  classList : list jsstring;
  attributes : list (jsstring * jsstring);
  textContent : jsstring;
  disabled : bool;
  originalText : option jsstring
}.

(** *** [classList] *)

(** [tokens.contains(token)] *)
Definition contains (tokens : list jsstring) (token : jsstring) : bool :=
  existsb (string_eqb token) tokens.

(** [tokens.add(token)] *)
Definition add (tokens : list jsstring) (token : jsstring) : list jsstring :=
  if contains tokens token then tokens else tokens ++ [token].

(** [tokens.remove(token, ...)] *)
Definition remove (tokens : list jsstring) (gone : list jsstring) : list jsstring :=
  filter (fun token => negb (contains gone token)) tokens.

(** *** Attributes *)

(** [el.getAttribute(name)] *)
Fixpoint lookup (attrs : list (jsstring * jsstring)) (name : jsstring) : option jsstring :=
  match attrs with
  | [] => None
  | (n, v) :: rest => if string_eqb n name then Some v else lookup rest name
  end.

(** The attribute list after [el.setAttribute(name, value)]. *)
Fixpoint store (attrs : list (jsstring * jsstring)) (name value : jsstring)
  : list (jsstring * jsstring) :=
  match attrs with
  | [] => [(name, value)]
  | (n, v) :: rest =>
      if string_eqb n name then (n, value) :: rest
      else (n, v) :: store rest name value
  end.

(** The attribute list after [el.removeAttribute(name)]. *)
Definition erase (attrs : list (jsstring * jsstring)) (name : jsstring)
  : list (jsstring * jsstring) :=
  filter (fun attr => negb (string_eqb (fst attr) name)) attrs.

Definition getAttribute (el : element) (name : jsstring) : option jsstring :=
  lookup (attributes el) name.

Definition setAttribute (name value : jsstring) (el : element) : element :=
  {| elementId := elementId el;
     classList := classList el;
     attributes := store (attributes el) name value;
     textContent := textContent el;
     disabled := disabled el;
     originalText := originalText el |}.

Definition removeAttribute (name : jsstring) (el : element) : element :=
  {| elementId := elementId el;
     classList := classList el;
     attributes := erase (attributes el) name;
     textContent := textContent el;
     disabled := disabled el;
     originalText := originalText el |}.

Definition set_classList (tokens : list jsstring) (el : element) : element :=
  {| elementId := elementId el;
     classList := tokens;
     attributes := attributes el;
     textContent := textContent el;
     disabled := disabled el;
     originalText := originalText el |}.

Definition classList_add (token : jsstring) (el : element) : element :=
  set_classList (add (classList el) token) el.

Definition classList_remove (gone : list jsstring) (el : element) : element :=
  set_classList (remove (classList el) gone) el.

Definition set_textContent (text : jsstring) (el : element) : element :=
  {| elementId := elementId el;
     classList := classList el;
     attributes := attributes el;
     textContent := text;
     disabled := disabled el;
     originalText := originalText el |}.

Definition set_disabled (b : bool) (el : element) : element :=
  {| elementId := elementId el;
     classList := classList el;
     attributes := attributes el;
     textContent := textContent el;
     disabled := b;
     originalText := originalText el |}.

Definition set_originalText (text : jsstring) (el : element) : element :=
  {| elementId := elementId el;
     classList := classList el;
     attributes := attributes el;
     textContent := textContent el;
     disabled := disabled el;
     originalText := Some text |}.

Definition set_elementId (text : jsstring) (el : element) : element :=
  {| elementId := text;
     classList := classList el;
     attributes := attributes el;
     textContent := textContent el;
     disabled := disabled el;
     originalText := originalText el |}.

(** *** The element cache *)

(** The module's [elements] object: whether the form was found, and the
    elements found in it ([None] for [null]).  The five selectors are taken
    to find five different elements. *)
Record elements := mkElements {
  formFound : bool;
  emailInput : option element;
  submitButton : option element;
  errorMessage : option element;
  successMessage : option element;
  privacyBox : option element
}.

(** [elements] as the module declares it. *)
Definition no_elements : elements :=
  {| formFound := false;
     emailInput := None;
     submitButton := None;
     errorMessage := None;
     successMessage := None;
     privacyBox := None |}.

Definition set_emailInput (el : option element) (e : elements) : elements :=
  {| formFound := formFound e;
     emailInput := el;
     submitButton := submitButton e;
     errorMessage := errorMessage e;
     successMessage := successMessage e;
     privacyBox := privacyBox e |}.

Definition set_submitButton (el : option element) (e : elements) : elements :=
  {| formFound := formFound e;
     emailInput := emailInput e;
     submitButton := el;
     errorMessage := errorMessage e;
     successMessage := successMessage e;
     privacyBox := privacyBox e |}.

Definition set_errorMessage (el : option element) (e : elements) : elements :=
  {| formFound := formFound e;
     emailInput := emailInput e;
     submitButton := submitButton e;
     errorMessage := el;
     successMessage := successMessage e;
     privacyBox := privacyBox e |}.

Definition set_successMessage (el : option element) (e : elements) : elements :=
  {| formFound := formFound e;
     emailInput := emailInput e;
     submitButton := submitButton e;
     errorMessage := errorMessage e;
     successMessage := el;
     privacyBox := privacyBox e |}.

Definition set_privacyBox (el : option element) (e : elements) : elements :=
  {| formFound := formFound e;
     emailInput := emailInput e;
     submitButton := submitButton e;
     errorMessage := errorMessage e;
     successMessage := successMessage e;
     privacyBox := el |}.

(** The element a handler is handed: the [event.target] of the listeners
    on the email input and on the privacy checkbox. *)
Inductive target :=
| EmailInput
| PrivacyCheckbox.

Definition element_of (input : target) (e : elements) : option element :=
  match input with
  | EmailInput => emailInput e
  | PrivacyCheckbox => privacyBox e
  end.

Definition set_element_of (input : target) (el : option element) (e : elements) : elements :=
  match input with
  | EmailInput => set_emailInput el e
  | PrivacyCheckbox => set_privacyBox el e
  end.

(** *** Validation state of an input *)

(** [setValidState(input)] *)
Definition setValidState (input : target) (e : elements) : elements :=
  match element_of input e with
  | None => e
  | Some el =>
      set_element_of input
        (Some (setAttribute (lit "aria-invalid") (lit "false")
                 (classList_add (lit "is-valid")
                    (classList_remove [lit "is-invalid"] el)))) e
  end.

(** [showError(message)] *)
Definition showError (message : jsstring) (e : elements) : elements :=
  match errorMessage e with
  | None => e
  | Some box =>
      set_errorMessage
        (Some (setAttribute (lit "aria-hidden") (lit "false")
                 (classList_remove [lit "is-hidden"]
                    (set_textContent message box)))) e
  end.

(** [showSuccess(message)] *)
Definition showSuccess (message : jsstring) (e : elements) : elements :=
  match successMessage e with
  | None => e
  | Some box =>
      set_successMessage
        (Some (setAttribute (lit "aria-hidden") (lit "false")
                 (classList_remove [lit "is-hidden"]
                    (set_textContent message box)))) e
  end.

(** [setInvalidState(input, message)] *)
Definition setInvalidState (input : target) (message : jsstring) (e : elements) : elements :=
  match element_of input e with
  | None => e
  | Some el =>
      let e :=
        set_element_of input
          (Some (setAttribute (lit "aria-invalid") (lit "true")
                   (classList_add (lit "is-invalid")
                      (classList_remove [lit "is-valid"] el)))) e in
      if truthy (VString message) then showError message e else e
  end.

(** [removeValidationState(input)] *)
Definition removeValidationState (input : target) (e : elements) : elements :=
  match element_of input e with
  | None => e
  | Some el =>
      set_element_of input
        (Some (removeAttribute (lit "aria-invalid")
                 (classList_remove [lit "is-valid"; lit "is-invalid"] el))) e
  end.

(** [setSubmittingState(isSubmitting)] *)
Definition setSubmittingState (isSubmitting : bool) (e : elements) : elements :=
  match submitButton e with
  | None => e
  | Some button =>
      if isSubmitting then
        let button := set_disabled true button in
        let button := classList_add (lit "is-loading") button in
        let button := setAttribute (lit "aria-busy") (lit "true") button in
        (* Store original text *)
        let button :=
          if negb (truthy (match originalText button with
                           | Some text => VString text
                           | None => VUndefined
                           end))
          then set_originalText (textContent button) button
          else button in
        set_submitButton (Some (set_textContent (lit "Subscribing...") button)) e
      else
        let button := set_disabled false button in
        let button := classList_remove [lit "is-loading"] button in
        let button := setAttribute (lit "aria-busy") (lit "false") button in
        (* Restore original text *)
        let button :=
          match originalText button with
          | Some text =>
              if truthy (VString text) then set_textContent text button else button
          | None => button
          end in
        set_submitButton (Some button) e
  end.

(** What [clearMessages] does to a message box. *)
Definition hide (box : element) : element :=
  setAttribute (lit "aria-hidden") (lit "true")
    (classList_add (lit "is-hidden") (set_textContent [] box)).

(** [clearMessages()] *)
Definition clearMessages (e : elements) : elements :=
  let e :=
    match errorMessage e with
    | Some box => set_errorMessage (Some (hide box)) e
    | None => e
    end in
  match successMessage e with
  | Some box => set_successMessage (Some (hide box)) e
  | None => e
  end.

(** [focusFirstError()]: of the focus itself nothing is kept, only what the
    call does to the attributes. *)
Definition focusFirstError (e : elements) : elements :=
  match errorMessage e with
  | Some box =>
      if negb (contains (classList box) (lit "is-hidden")) then
        set_errorMessage
          (Some (removeAttribute (lit "tabindex")
                   (setAttribute (lit "tabindex") (lit "-1") box))) e
      else e
  | None => e
  end.

(** *** Listeners on the inputs *)

(** [handleEmailBlur(event)], with the [value] of the input. *)
Definition handleEmailBlur (value : jsstring) (e : elements) : completion elements :=
  let email := trim value in
  if negb (truthy (VString email)) then Normal (removeValidationState EmailInput e)
  else
    cbind (isValidEmail (VString email)) (fun valid =>
    if valid then Normal (setValidState EmailInput e)
    else Normal (setInvalidState EmailInput (ERROR_MESSAGES INVALID_EMAIL) e)).

(** [handleEmailInput(event)] *)
Definition handleEmailInput (e : elements) : elements :=
  match emailInput e with
  | Some input =>
      (* Clear error state while typing *)
      if contains (classList input) (lit "is-invalid") then
        clearMessages (removeValidationState EmailInput e)
      else e
  | None => e
  end.

(** [handlePrivacyChange(event)], with the [checked] of the checkbox. *)
Definition handlePrivacyChange (checked : bool) (e : elements) : elements :=
  if checked then removeValidationState PrivacyCheckbox e else e.

(** [window.Newsletter.clearForm()]; [form.reset()] restores the values of
    the controls, which are not part of [elements]. *)
Definition clearForm (e : elements) : elements :=
  if formFound e then
    let e := clearMessages e in
    match emailInput e with
    | Some _ => removeValidationState EmailInput e
    | None => e
    end
  else e.

(** *** Setting up *)

(** What the selectors find in the document: no form, or a form and those
    of the five elements that it contains. *)
Record form_content := mkFormContent {
  found_emailInput : option element;
  found_submitButton : option element;
  found_errorMessage : option element;
  found_successMessage : option element;
  found_privacyBox : option element
}.

Definition document := option form_content.

(** [cacheElements()] *)
Definition cacheElements (d : document) (e : elements) : elements :=
  match d with
  | None =>
      {| formFound := false;
         emailInput := emailInput e;
         submitButton := submitButton e;
         errorMessage := errorMessage e;
         successMessage := successMessage e;
         privacyBox := privacyBox e |}
  | Some content =>
      {| formFound := true;
         emailInput := found_emailInput content;
         submitButton := found_submitButton content;
         errorMessage := found_errorMessage content;
         successMessage := found_successMessage content;
         privacyBox := found_privacyBox content |}
  end.

(** The listeners [setupEventListeners] attaches. *)
Inductive listener :=
| FormOnSubmit
| EmailOnBlur
| EmailOnInput
| PrivacyOnChange.

(** [setupEventListeners()]: the listeners it adds to those attached. *)
Definition setupEventListeners (e : elements) (attached : list listener) : list listener :=
  match formFound e, emailInput e with
  | true, Some _ =>
      let attached := attached ++ [FormOnSubmit; EmailOnBlur; EmailOnInput] in
      match privacyBox e with
      | Some _ => attached ++ [PrivacyOnChange]
      | None => attached
      end
  | _, _ => attached
  end.

(** [setupAccessibility()] *)
Definition setupAccessibility (e : elements) : elements :=
  match emailInput e with
  | None => e
  | Some input =>
      (* Ensure proper ARIA attributes *)
      let e :=
        match errorMessage e with
        | Some box =>
            let errorId :=
              if truthy (VString (elementId box)) then elementId box
              else lit "newsletter-error" in
            let box := set_elementId errorId box in
            let input := setAttribute (lit "aria-describedby") errorId input in
            let box := setAttribute (lit "role") (lit "alert") box in
            let box := setAttribute (lit "aria-live") (lit "polite") box in
            set_errorMessage (Some box) (set_emailInput (Some input) e)
        | None => e
        end in
      match successMessage e with
      | Some box =>
          set_successMessage
            (Some (setAttribute (lit "aria-live") (lit "polite")
                     (setAttribute (lit "role") (lit "status") box))) e
      | None => e
      end
  end.

(** The module as a whole: its [state], its [elements], the listeners it
    has attached and the transport calls that have not settled. *)
Record page := mkPage {
  moduleState : state;
  cache : elements;
  listeners : list listener;
  inFlight : list subscription
}.

(** The module when its script has been evaluated and [init] not yet run. *)
Definition fresh_page : page :=
  {| moduleState := initial_state;
     cache := no_elements;
     listeners := [];
     inFlight := [] |}.

Definition set_isInitialized (b : bool) (s : state) : state :=
  {| isInitialized := b;
     isSubmitting := isSubmitting s;
     lastSubmissionTime := lastSubmissionTime s;
     submissionCount := submissionCount s;
     rateLimitWindow := rateLimitWindow s;
     maxSubmissionsPerWindow := maxSubmissionsPerWindow s |}.

(** [init()], on the document [d]. *)
Definition init (d : document) (p : page) : page :=
  if isInitialized (moduleState p) then p
  else
    let e := cacheElements d (cache p) in
    if negb (formFound e) then
      {| moduleState := moduleState p; cache := e;
         listeners := listeners p; inFlight := inFlight p |}
    else
      {| moduleState := set_isInitialized true (moduleState p);
         cache := setupAccessibility e;
         listeners := setupEventListeners e (listeners p);
         inFlight := inFlight p |}.

(** *** The calls of the submission path, on the elements *)

(** What a call made by [handleFormSubmit] or [submitForm] does to the
    elements; [form.reset()], [trackMetric] and a bare [focus()] leave them
    as they are. *)
Definition perform (c : ui_call) (e : elements) : elements :=
  match c with
  | ClearMessages => clearMessages e
  | ShowError text => showError text e
  | ShowSuccess text => showSuccess text e
  | FocusFirstError => focusFirstError e
  | FocusSuccessMessage => e
  | SetSubmittingState submitting => setSubmittingState submitting e
  | FormReset => e
  | RemoveValidationState => removeValidationState EmailInput e
  | TrackMetric _ _ => e
  end.

(** The elements after a trace of calls (latest first). *)
Definition render (calls : list ui_call) (e : elements) : elements :=
  fold_right perform e calls.

(** What can happen to the page once [init] has run. *)
Inductive page_event :=
| Submitted (f : form) (t_validate t_check : Z)
| Settled (o : settlement) (now : Z)
| Blurred (value : jsstring)
| Typed
| PrivacyChanged (checked : bool)
| FormCleared.

Definition attached (l : listener) (p : page) : bool :=
  existsb (fun l' =>
             match l, l' with
             | FormOnSubmit, FormOnSubmit | EmailOnBlur, EmailOnBlur
             | EmailOnInput, EmailOnInput | PrivacyOnChange, PrivacyOnChange => true
             | _, _ => false
             end) (listeners p).

Definition with_cache (e : elements) (p : page) : page :=
  {| moduleState := moduleState p; cache := e;
     listeners := listeners p; inFlight := inFlight p |}.

(** The page after an action of the submission path: the state and the
    pending calls it leaves, and its calls performed on the elements. *)
Definition after_action (a : M unit) (p : page) (waiting : list subscription) : page :=
  let w := snd (a {| st := moduleState p; pending := waiting; ui := [] |}) in
  {| moduleState := st w;
     cache := render (ui w) (cache p);
     listeners := listeners p;
     inFlight := pending w |}.

(** One event: the listener runs if it is attached; a settlement needs a
    pending call; [clearForm] is public.  An event whose listener is missing
    is not the module's to handle. *)
Definition page_step (p : page) (ev : page_event) : option page :=
  match ev with
  | Submitted f t_validate t_check =>
      if attached FormOnSubmit p
      then Some (after_action (handleFormSubmit f t_validate t_check) p (inFlight p))
      else None
  | Settled o now =>
      match inFlight p with
      | [] => None
      | _ :: others => Some (after_action (submitForm_resume o now) p others)
      end
  | Blurred value =>
      if attached EmailOnBlur p then
        match handleEmailBlur value (cache p) with
        | Normal e => Some (with_cache e p)
        | Throw _ => Some p
        end
      else None
  | Typed =>
      if attached EmailOnInput p then Some (with_cache (handleEmailInput (cache p)) p)
      else None
  | PrivacyChanged checked =>
      if attached PrivacyOnChange p
      then Some (with_cache (handlePrivacyChange checked (cache p)) p)
      else None
  | FormCleared => Some (with_cache (clearForm (cache p)) p)
  end.

Fixpoint page_run (p : page) (events : list page_event) : option page :=
  match events with
  | [] => Some p
  | ev :: rest =>
      match page_step p ev with
      | Some p' => page_run p' rest
      | None => None
      end
  end.

End Dom.

(** ** What the page shows *)

Module DomSpec.
Import JS Newsletter Dom.

(** The code units from [!] to [~]. *)
Definition printable (c : code_unit) : Prop := (33 <= c <= 126)%N.


Definition has_class (el : element) (token : jsstring) : bool :=
  contains (classList el) token.

(** A message box that shows [text]. *)
Definition shows (box : element) (text : jsstring) : Prop :=
  textContent box = text
  /\ has_class box (lit "is-hidden") = false
  /\ getAttribute box (lit "aria-hidden") = Some (lit "false").

(** A message box that is hidden and empty. *)
Definition hidden_empty (box : element) : Prop :=
  textContent box = []
  /\ has_class box (lit "is-hidden") = true
  /\ getAttribute box (lit "aria-hidden") = Some (lit "true").

(** The three validation states of an input. *)
Definition marked_valid (input : element) : Prop :=
  has_class input (lit "is-valid") = true
  /\ has_class input (lit "is-invalid") = false
  /\ getAttribute input (lit "aria-invalid") = Some (lit "false").

Definition marked_invalid (input : element) : Prop :=
  has_class input (lit "is-valid") = false
  /\ has_class input (lit "is-invalid") = true
  /\ getAttribute input (lit "aria-invalid") = Some (lit "true").

Definition unmarked (input : element) : Prop :=
  has_class input (lit "is-valid") = false
  /\ has_class input (lit "is-invalid") = false
  /\ getAttribute input (lit "aria-invalid") = None.

(** The visual marks of an input and its [aria-invalid] agree. *)
Definition marks_agree (e : elements) : Prop :=
  forall input, emailInput e = Some input ->
    marked_valid input \/ marked_invalid input \/ unmarked input.

(** The [is-hidden] class of a message box and its [aria-hidden] agree,
    and a hidden box is empty. *)
Definition box_agrees (box : element) : Prop :=
  shows box (textContent box) \/ hidden_empty box.

Definition boxes_agree (e : elements) : Prop :=
  (forall box, errorMessage e = Some box -> box_agrees box)
  /\ (forall box, successMessage e = Some box -> box_agrees box).

(** The submit button is disabled and loading exactly while the guard is
    set. *)
Definition button_reflects_guard (p : page) : Prop :=
  forall button, submitButton (cache p) = Some button ->
    disabled button = isSubmitting (moduleState p)
    /\ has_class button (lit "is-loading") = isSubmitting (moduleState p).

(** The text a button goes back to after [setSubmittingState(true)] and
    [setSubmittingState(false)]. *)
Definition text_after_round (button : element) : jsstring :=
  match originalText button with
  | Some (c :: text) => c :: text
  | _ =>
      match textContent button with
      | c :: text => c :: text
      | [] => lit "Subscribing..."
      end
  end.

(** The element an input becomes when it is marked valid, marked invalid,
    or unmarked. *)
Definition made_valid (el : element) : element :=
  setAttribute (lit "aria-invalid") (lit "false")
    (classList_add (lit "is-valid") (classList_remove [lit "is-invalid"] el)).

Definition made_invalid (el : element) : element :=
  setAttribute (lit "aria-invalid") (lit "true")
    (classList_add (lit "is-invalid") (classList_remove [lit "is-valid"] el)).

Definition made_unmarked (el : element) : element :=
  removeAttribute (lit "aria-invalid")
    (classList_remove [lit "is-valid"; lit "is-invalid"] el).

(** The module of a page as a world, its calls left out. *)
Definition world_of (p : page) : world :=
  {| st := moduleState p; pending := inFlight p; ui := [] |}.

End DomSpec.

(** ** A sample page *)

Module PageExamples.
Import JS Newsletter Dom DomSpec.

Definition plain (text : jsstring) : element :=
  {| elementId := [];
     classList := [];
     attributes := [];
     textContent := text;
     disabled := false;
     originalText := None |}.

(** A form with the five elements, the two message boxes hidden. *)
Definition sample_document : document :=
  Some {| found_emailInput := Some (plain []);
          found_submitButton := Some (plain (lit "Subscribe"));
          found_errorMessage := Some (hide (plain []));
          found_successMessage := Some (hide (plain []));
          found_privacyBox := Some (plain []) |}.

(** A form that lacks the email input. *)
Definition document_without_input : document :=
  Some {| found_emailInput := None;
          found_submitButton := Some (plain (lit "Subscribe"));
          found_errorMessage := Some (hide (plain []));
          found_successMessage := None;
          found_privacyBox := None |}.

Definition sample_page : page := Eval vm_compute in init sample_document fresh_page.



(** The email input of the sample page, once [init] has described it. *)
Definition sample_input : element :=
  Eval vm_compute in
    match emailInput (cache sample_page) with
    | Some input => input
    | None => plain []
    end.

End PageExamples.

(** ** The calls of a settled submission *)

Module Calls.
Import JS Newsletter.

(** The calls [submitForm] makes between the settling of the transport
    call and its [finally] block (latest first). *)
Definition settled_calls (o : settlement) : list ui_call :=
  match o with
  | Resolved r =>
      if success r then
        [FocusSuccessMessage;
         TrackMetric (lit "newsletter_signup_success") (subscriptionId r);
         RemoveValidationState;
         FormReset;
         ShowSuccess (or_else (message r) SUBSCRIPTION_SUCCESS)]
      else
        [FocusFirstError;
         TrackMetric (lit "newsletter_signup_error")
           (Some (or_else (error r) (ERROR_MESSAGES GENERIC_ERROR)));
         ShowError (or_else (error r) (ERROR_MESSAGES GENERIC_ERROR))]
  | Rejected =>
      [FocusFirstError;
       TrackMetric (lit "newsletter_signup_error") (Some (ERROR_MESSAGES NETWORK_ERROR));
       ShowError (ERROR_MESSAGES NETWORK_ERROR)]
  end.



End Calls.

(** ** Facts about the matcher *)

Module RegexFacts.
Import JS Regex.

Lemma matches_seq_inv r1 r2 s :
  matches (Seq r1 r2) s ->
  exists s1 s2, s = s1 ++ s2 /\ matches r1 s1 /\ matches r2 s2.
Proof. intros H; inversion H; subst; eauto. Qed.

Lemma matches_alt_inv r1 r2 s :
  matches (Alt r1 r2) s -> matches r1 s \/ matches r2 s.
Proof. intros H; inversion H; subst; auto. Qed.

Lemma matches_eps_inv s : matches Eps s -> s = [].
Proof. intros H; inversion H; reflexivity. Qed.

Lemma matches_class_inv ranges s :
  matches (Class ranges) s -> exists c, s = [c] /\ in_class ranges c = true.
Proof. intros H; inversion H; subst; eauto. Qed.

Lemma matches_empty_inv s : ~ matches Empty s.
Proof. intros H; inversion H. Qed.

Lemma matches_star_inv r s :
  matches (Star r) s ->
  s = [] \/ exists c s1 s2, s = c :: s1 ++ s2 /\ matches r (c :: s1) /\ matches (Star r) s2.
Proof.
  intros H. remember (Star r) as r' eqn:E.
  induction H; try discriminate.
  - now left.
  - injection E as ->.
    destruct s1 as [|c s1].
    + simpl. apply IHmatches2. reflexivity.
    + right. exists c, s1, s2. auto.
Qed.

Lemma mkSeq_matches r1 r2 s : matches (mkSeq r1 r2) s <-> matches (Seq r1 r2) s.
Proof.
  split.
  - intros H.
    destruct r1; simpl in H;
      try (now apply matches_empty_inv in H);
      destruct r2; simpl in H;
      try (now apply matches_empty_inv in H);
      try exact H;
      apply (MSeq MEps H).
  - intros H. apply matches_seq_inv in H as (s1 & s2 & -> & H1 & H2).
    destruct r1; simpl;
      try (now apply matches_empty_inv in H1);
      destruct r2; simpl;
      try (now apply matches_empty_inv in H2);
      try (apply matches_eps_inv in H1; subst; exact H2);
      now constructor.
Qed.

Lemma mkAlt_matches r1 r2 s : matches (mkAlt r1 r2) s <-> matches (Alt r1 r2) s.
Proof.
  split.
  - intros H.
    destruct r1; simpl in H;
      try (now apply MAltR);
      destruct r2; simpl in H;
      try (now apply MAltL);
      exact H.
  - intros H. apply matches_alt_inv in H as [H | H].
    + destruct r1; simpl;
        try (now apply matches_empty_inv in H);
        destruct r2; simpl; try exact H; now apply MAltL.
    + destruct r1; simpl; try exact H;
        destruct r2; simpl;
        try (now apply matches_empty_inv in H);
        now apply MAltR.
Qed.

Lemma nullable_matches r : nullable r = true <-> matches r [].
Proof.
  induction r; simpl.
  - split; [discriminate | intros H; inversion H].
  - split; [constructor | reflexivity].
  - split; [discriminate | intros H; inversion H].
  - rewrite andb_true_iff, IHr1, IHr2. split.
    + intros [H1 H2]. apply (MSeq H1 H2).
    + intros H. apply matches_seq_inv in H as (s1 & s2 & E & H1 & H2).
      symmetry in E. apply app_eq_nil in E as [-> ->]. auto.
  - rewrite orb_true_iff, IHr1, IHr2. split.
    + intros [H | H]; [now apply MAltL | now apply MAltR].
    + apply matches_alt_inv.
  - split; [constructor | reflexivity].
Qed.

Lemma deriv_matches c r : forall s, matches (deriv c r) s <-> matches r (c :: s).
Proof.
  induction r; intros s; simpl.
  - split; intros H; inversion H.
  - split; intros H; inversion H.
  - destruct (in_class ranges c) eqn:E; split; intros H.
    + apply matches_eps_inv in H as ->. now constructor.
    + apply matches_class_inv in H as (c' & [= -> ->] & _). constructor.
    + inversion H.
    + apply matches_class_inv in H as (c' & [= -> ->] & H). congruence.
  - assert (Hcons : matches (mkSeq (deriv c r1) r2) s ->
                    matches (Seq r1 r2) (c :: s)).
    { intros H. apply mkSeq_matches, matches_seq_inv in H as (s1 & s2 & -> & H1 & H2).
      apply IHr1 in H1. apply (MSeq H1 H2). }
    assert (Hsplit : matches (Seq r1 r2) (c :: s) ->
                     matches (mkSeq (deriv c r1) r2) s \/
                     (matches r1 [] /\ matches (deriv c r2) s)).
    { intros H. apply matches_seq_inv in H as (s1 & s2 & E & H1 & H2).
      destruct s1 as [|c' s1]; simpl in E.
      - subst s2. right. split; [exact H1 | now apply IHr2].
      - injection E as -> ->. left. apply mkSeq_matches.
        apply MSeq; [now apply IHr1 | exact H2]. }
    destruct (nullable r1) eqn:N.
    + rewrite mkAlt_matches. split.
      * intros H. apply matches_alt_inv in H as [H | H]; [now apply Hcons |].
        apply IHr2 in H. apply nullable_matches in N. apply (MSeq N H).
      * intros H. apply Hsplit in H as [H | [_ H]]; [now apply MAltL | now apply MAltR].
    + split; [exact Hcons |].
      intros H. apply Hsplit in H as [H | [H _]]; [exact H |].
      apply nullable_matches in H. congruence.
  - rewrite mkAlt_matches. split.
    + intros H. apply matches_alt_inv in H as [H | H];
        [apply MAltL; now apply IHr1 | apply MAltR; now apply IHr2].
    + intros H. apply matches_alt_inv in H as [H | H];
        [apply MAltL; now apply IHr1 | apply MAltR; now apply IHr2].
  - rewrite mkSeq_matches. split.
    + intros H. apply matches_seq_inv in H as (s1 & s2 & -> & H1 & H2).
      apply IHr in H1. apply (MStarApp H1 H2).
    + intros H. apply matches_star_inv in H as [E | (c' & s1 & s2 & E & H1 & H2)];
        [discriminate |].
      injection E as -> ->. apply MSeq; [now apply IHr | exact H2].
Qed.

Lemma test_matches r s : test r s = true <-> matches r s.
Proof.
  unfold test. revert r. induction s as [|c s IH]; intros r; simpl.
  - apply nullable_matches.
  - rewrite IH. apply deriv_matches.
Qed.

End RegexFacts.

(** ** Facts about strings and the email pattern *)

Module EmailFacts.
Import JS Regex Newsletter Spec RegexFacts.

Ltac bool_to_prop :=
  repeat match goal with
    | H : _ && _ = true |- _ => apply andb_true_iff in H; destruct H
    | H : _ || _ = true |- _ => apply orb_true_iff in H; destruct H
    | H : false = true |- _ => discriminate H
    | H : (_ <=? _)%N = true |- _ => apply N.leb_le in H
    | H : (_ =? _)%N = true |- _ => apply N.eqb_eq in H
    end.

Lemma in_alnum_class c : in_class alnum_class c = true -> is_alnum c = true.
Proof.
  unfold in_class, alnum_class, is_alnum, range. simpl.
  rewrite orb_false_r, orb_assoc. auto.
Qed.

Lemma alnum_in_class c : is_alnum c = true -> in_class alnum_class c = true.
Proof.
  unfold in_class, alnum_class, is_alnum, range. simpl.
  rewrite orb_false_r, orb_assoc. auto.
Qed.

Lemma in_alnum_hyphen_class c :
  in_class alnum_hyphen_class c = true <-> is_alnum c || (c =? hyphen)%N = true.
Proof.
  unfold in_class, alnum_hyphen_class, is_alnum, range, chr, hyphen. simpl.
  rewrite orb_false_r, !orb_true_iff, !andb_true_iff, !N.leb_le, N.eqb_eq.
  change (unit_of "-") with 45%N. lia.
Qed.

Lemma alnum_not_hyphen c : is_alnum c = true -> (c =? hyphen)%N = false.
Proof.
  unfold is_alnum, hyphen. intros H. apply N.eqb_neq. intros ->.
  vm_compute in H. discriminate.
Qed.

Lemma in_at_class c : in_class [chr "@"%char] c = true <-> c = at_sign.
Proof.
  unfold in_class, chr, at_sign. simpl.
  rewrite orb_false_r, andb_true_iff, !N.leb_le. lia.
Qed.

Lemma in_dot_class c : in_class [chr "."%char] c = true <-> c = dot.
Proof.
  unfold in_class, chr, dot. simpl.
  rewrite orb_false_r, andb_true_iff, !N.leb_le. lia.
Qed.

(** The classes of the pattern contain no whitespace and no [@]. *)
Lemma local_char_not_whitespace c :
  is_local_char c = true -> is_whitespace c = false.
Proof.
  unfold is_local_char, in_class, local_class, range, chr. simpl. intros H.
  assert (B : (33 <= c <= 126)%N) by (bool_to_prop; lia).
  destruct (is_whitespace c) eqn:W; [| reflexivity].
  unfold is_whitespace in W. bool_to_prop; lia.
Qed.

Lemma local_char_not_at c : is_local_char c = true -> c <> at_sign.
Proof.
  intros H ->. vm_compute in H. discriminate.
Qed.

Lemma valid_label_no_at l : valid_label l = true -> ~ In at_sign l.
Proof.
  unfold valid_label. intros H A. bool_to_prop.
  match goal with F : forallb _ l = true |- _ =>
    rewrite forallb_forall in F; apply F in A end.
  vm_compute in A. discriminate.
Qed.

(** *** What the pieces of the pattern match *)

Lemma star_class_matches ranges s :
  matches (Star (Class ranges)) s -> forallb (in_class ranges) s = true.
Proof.
  intros H. remember (Star (Class ranges)) as r eqn:E.
  induction H; try discriminate; [reflexivity |].
  injection E as ->.
  apply matches_class_inv in H as (c & -> & Hc). simpl.
  rewrite Hc. simpl. auto.
Qed.

Lemma plus_class_matches ranges s :
  matches (Plus (Class ranges)) s ->
  s <> [] /\ forallb (in_class ranges) s = true.
Proof.
  intros H. apply matches_seq_inv in H as (s1 & s2 & -> & H1 & H2).
  apply matches_class_inv in H1 as (c & -> & Hc).
  apply star_class_matches in H2. simpl. rewrite Hc, H2.
  split; [discriminate | reflexivity].
Qed.

Lemma upto_class_matches ranges n : forall s,
  matches (Upto n (Class ranges)) s ->
  (length s <= n)%nat /\ forallb (in_class ranges) s = true.
Proof.
  induction n as [|n IH]; intros s H; simpl in H.
  - apply matches_eps_inv in H as ->. simpl. auto.
  - apply matches_alt_inv in H as [H | H].
    + apply matches_seq_inv in H as (s1 & s2 & -> & H1 & H2).
      apply matches_class_inv in H1 as (c & -> & Hc).
      apply IH in H2 as [L F]. simpl. rewrite Hc, F. split; [lia | reflexivity].
    + apply matches_eps_inv in H as ->. simpl. split; [lia | reflexivity].
Qed.

Lemma label_matches s : matches label_regex s -> valid_label s = true.
Proof.
  intros H. apply matches_seq_inv in H as (s1 & s2 & -> & H1 & H2).
  apply matches_class_inv in H1 as (c & -> & Hc). apply in_alnum_class in Hc.
  pose proof (alnum_not_hyphen _ Hc) as Nc.
  apply matches_alt_inv in H2 as [H2 | H2].
  - apply matches_seq_inv in H2 as (mid & t & -> & Hm & Ht).
    apply matches_class_inv in Ht as (d & -> & Hd). apply in_alnum_class in Hd.
    pose proof (alnum_not_hyphen _ Hd) as Nd.
    apply upto_class_matches in Hm as [L F].
    unfold valid_label, ends_with. simpl.
    rewrite rev_app_distr. simpl.
    rewrite Hc, Nc, Nd, forallb_app. simpl. rewrite Hd. simpl.
    rewrite length_app. simpl.
    replace (forallb _ mid) with true.
    + simpl. rewrite !andb_true_r. apply Nat.leb_le. lia.
    + symmetry. rewrite forallb_forall in *. intros x Hx.
      apply in_alnum_hyphen_class. auto.
  - apply matches_eps_inv in H2 as ->.
    unfold valid_label, ends_with. simpl. rewrite Hc, Nc. reflexivity.
Qed.

Lemma dotted_labels_match s :
  matches (Star (Seq (Class [chr "."%char]) label_regex)) s ->
  exists labels,
    s = concat (map (cons dot) labels) /\ forallb valid_label labels = true.
Proof.
  intros H. remember (Star (Seq (Class [chr "."%char]) label_regex)) as r eqn:E.
  induction H; try discriminate.
  - exists []. auto.
  - injection E as ->.
    destruct (IHmatches2 eq_refl) as (labels & -> & F).
    apply matches_seq_inv in H as (d & l & -> & Hd & Hl).
    apply matches_class_inv in Hd as (c & -> & Hc). apply in_dot_class in Hc as ->.
    apply label_matches in Hl.
    exists (l :: labels). simpl. rewrite Hl, F. auto.
Qed.

Lemma join_dots_cons l labels :
  join_dots (l :: labels) = l ++ concat (map (cons dot) labels).
Proof.
  revert l. induction labels as [|l' labels IH]; intros l.
  - simpl. now rewrite app_nil_r.
  - change (join_dots (l :: l' :: labels)) with (l ++ dot :: join_dots (l' :: labels)).
    rewrite IH. reflexivity.
Qed.

(** Whatever [EMAIL_REGEX] matches is in the email grammar. *)
Lemma email_regex_in_grammar s : matches EMAIL_REGEX s -> email_grammar s.
Proof.
  intros H. apply matches_seq_inv in H as (local & s1 & -> & Hl & H).
  apply matches_seq_inv in H as (a & s2 & -> & Ha & H).
  apply matches_seq_inv in H as (l & s3 & -> & Hlab & H).
  apply plus_class_matches in Hl as [Hne Hl].
  apply matches_class_inv in Ha as (c & -> & Hc). apply in_at_class in Hc as ->.
  apply label_matches in Hlab.
  apply dotted_labels_match in H as (labels & -> & F).
  exists local, (l :: labels). rewrite join_dots_cons.
  repeat split; try assumption; try discriminate.
  simpl. now rewrite Hlab, F.
Qed.

(** Conversely, whatever is in the email grammar is matched. *)
Lemma class_star_matches ranges s :
  forallb (in_class ranges) s = true -> matches (Star (Class ranges)) s.
Proof.
  induction s as [|c s IH]; simpl; intros H; [constructor |].
  apply andb_true_iff in H as [Hc Hs].
  apply (MStarApp (MClass ranges c Hc) (IH Hs)).
Qed.

Lemma class_upto_matches ranges n : forall s,
  (length s <= n)%nat -> forallb (in_class ranges) s = true ->
  matches (Upto n (Class ranges)) s.
Proof.
  induction n as [|n IH]; intros s L F; simpl.
  - destruct s; [constructor | simpl in L; lia].
  - destruct s as [|c s]; [apply MAltR; constructor |].
    simpl in L, F. apply andb_true_iff in F as [Hc Hs].
    apply MAltL. apply (MSeq (MClass ranges c Hc)). apply IH; [lia | exact Hs].
Qed.

Lemma alnum_or_hyphen c :
  is_alnum c || (c =? hyphen)%N = true -> (c =? hyphen)%N = false -> is_alnum c = true.
Proof. intros H N. rewrite N, orb_false_r in H. exact H. Qed.

Lemma valid_label_matches l : valid_label l = true -> matches label_regex l.
Proof.
  unfold valid_label, ends_with. intros H.
  repeat (apply andb_true_iff in H; destruct H as [H ?]).
  repeat match goal with X : negb _ = true |- _ => apply negb_true_iff in X end.
  apply Nat.leb_le in H.
  match goal with X : (length l <=? 63)%nat = true |- _ => apply Nat.leb_le in X end.
  destruct l as [|c rest]; [simpl in H; lia |].
  match goal with X : forallb _ (c :: rest) = true |- _ =>
    simpl in X; apply andb_true_iff in X; destruct X as [Fc Fr] end.
  match goal with X : begins_with hyphen (c :: rest) = false |- _ => simpl in X;
    pose proof (alnum_or_hyphen c Fc X) as Ac end.
  change (c :: rest) with ([c] ++ rest).
  apply MSeq; [constructor; now apply alnum_in_class |].
  destruct rest as [|x rest']; [apply MAltR; constructor |].
  destruct (@exists_last _ (x :: rest')) as (mid & d & E); [discriminate |].
  rewrite E in *. clear E x rest'.
  apply MAltL.
  rewrite forallb_app in Fr. apply andb_true_iff in Fr as [Fm Fd].
  simpl in Fd. rewrite andb_true_r in Fd.
  match goal with X : begins_with hyphen (rev _) = false |- _ =>
    change (c :: mid ++ [d]) with ((c :: mid) ++ [d]) in X;
    rewrite rev_app_distr in X; simpl in X;
    pose proof (alnum_or_hyphen d Fd X) as Ad end.
  apply MSeq; [| constructor; now apply alnum_in_class].
  apply class_upto_matches.
  - match goal with X : (length (c :: mid ++ [d]) <= 63)%nat |- _ =>
      simpl in X; rewrite length_app in X; simpl in X; lia end.
  - rewrite forallb_forall in *. intros x Hx. apply in_alnum_hyphen_class. auto.
Qed.

Lemma valid_labels_match labels :
  forallb valid_label labels = true ->
  matches (Star (Seq (Class [chr "."%char]) label_regex)) (concat (map (cons dot) labels)).
Proof.
  induction labels as [|l labels IH]; simpl; intros H; [constructor |].
  apply andb_true_iff in H as [Hl Hs].
  change (dot :: l ++ concat (map (cons dot) labels))
    with ((dot :: l) ++ concat (map (cons dot) labels)).
  apply MStarApp; [| now apply IH].
  change (dot :: l) with ([dot] ++ l).
  apply MSeq; [constructor; now apply in_dot_class | now apply valid_label_matches].
Qed.

Lemma grammar_in_email_regex s : email_grammar s -> matches EMAIL_REGEX s.
Proof.
  intros (local & labels & -> & Hne & Hl & Hlabels & F).
  destruct labels as [|l labels]; [congruence |].
  rewrite join_dots_cons. simpl in F. apply andb_true_iff in F as [Fl Fs].
  apply MSeq.
  - destruct local as [|c local]; [congruence |].
    simpl in Hl. apply andb_true_iff in Hl as [Hc Hrest].
    change (c :: local) with ([c] ++ local).
    apply MSeq; [now constructor | now apply class_star_matches].
  - change (at_sign :: l ++ concat (map (cons dot) labels))
      with ([at_sign] ++ l ++ concat (map (cons dot) labels)).
    apply MSeq; [constructor; now apply in_at_class |].
    apply MSeq; [now apply valid_label_matches | now apply valid_labels_match].
Qed.

(** [EMAIL_REGEX] accepts exactly the email grammar. *)
Lemma email_regex_grammar s : test EMAIL_REGEX s = true <-> email_grammar s.
Proof.
  rewrite test_matches. split; [apply email_regex_in_grammar | apply grammar_in_email_regex].
Qed.

(** *** String methods *)

Lemma split_head s sep :
  nth_error (split s sep) 0 = Some (takeWhile (fun c => negb (c =? sep)%N) s).
Proof.
  induction s as [|c s IH]; simpl; [reflexivity |].
  destruct (c =? sep)%N; simpl; [reflexivity |].
  destruct (split s sep) as [|piece pieces]; simpl in *; [discriminate |].
  now injection IH as ->.
Qed.

Lemma startsWith_app sub rest : startsWith (sub ++ rest) sub = true.
Proof.
  induction sub as [|c sub IH]; simpl; [reflexivity |].
  now rewrite N.eqb_refl, IH.
Qed.

Lemma includes_app before sub after : includes (before ++ sub ++ after) sub = true.
Proof.
  induction before as [|c before IH]; simpl.
  - pose proof (startsWith_app sub after) as P.
    destruct (sub ++ after); simpl; rewrite P; reflexivity.
  - rewrite IH. apply orb_true_r.
Qed.

Lemma consecutive_dots_included s :
  consecutive_dots s -> includes s (lit "..") = true.
Proof.
  intros (before & after & ->).
  apply (includes_app before [dot; dot] after).
Qed.

Lemma trimStart_nil s : trimStart s = [] -> forallb is_whitespace s = true.
Proof.
  induction s as [|c s IH]; simpl; [reflexivity |].
  destruct (is_whitespace c); [exact IH | discriminate].
Qed.

Lemma trimStart_head s :
  match trimStart s with
  | [] => True
  | c :: _ => is_whitespace c = false
  end.
Proof.
  induction s as [|c s IH]; simpl; [exact I |].
  destruct (is_whitespace c) eqn:E; [exact IH | exact E].
Qed.

(** A string that trims to nothing is empty or begins with whitespace. *)
Lemma trim_nil s :
  trim s = [] -> s = [] \/ exists c rest, s = c :: rest /\ is_whitespace c = true.
Proof.
  unfold trim, trimEnd. intros H.
  assert (A : forallb is_whitespace s = true).
  { apply trimStart_nil.
    destruct (trimStart s) as [|c t] eqn:E; [reflexivity |].
    pose proof (trimStart_head s) as Hh. rewrite E in Hh.
    apply (f_equal (@rev _)) in H. rewrite rev_involutive in H.
    apply trimStart_nil in H. rewrite forallb_forall in H.
    assert (Hc : In c (rev (c :: t))) by (apply in_rev; rewrite rev_involutive; now left).
    apply H in Hc. congruence. }
  destruct s as [|c rest]; [now left | right].
  exists c, rest. simpl in A. apply andb_true_iff in A as [A _]. auto.
Qed.

(** *** [isValidEmail] on strings *)

(** The five checks of [isValidEmail], in the order it makes them. *)
Lemma isValidEmail_string s :
  isValidEmail (VString s) =
  Normal (truthy (VString s)
          && negb (254 <? length s)%nat
          && test EMAIL_REGEX s
          && negb (includes s (lit ".."))
          && negb (64 <? length (local_part s))%nat).
Proof.
  unfold isValidEmail, length_at, local_part, at_sign. rewrite split_head.
  destruct s as [|c s]; [reflexivity |].
  cbn [truthy typeof type_tag_eqb negb orb andb cbind].
  destruct (254 <? length (c :: s))%nat; [reflexivity |].
  destruct (test EMAIL_REGEX (c :: s)); [| reflexivity].
  destruct (includes (c :: s) (lit "..")); [reflexivity |].
  cbn [negb andb].
  destruct (64 <? _)%nat; reflexivity.
Qed.

Lemma isValidEmail_true s :
  isValidEmail (VString s) = Normal true ->
  s <> [] /\ (length s <= 254)%nat /\ matches EMAIL_REGEX s
  /\ includes s (lit "..") = false /\ (length (local_part s) <= 64)%nat.
Proof.
  rewrite isValidEmail_string. intros [= H].
  repeat (apply andb_true_iff in H; destruct H as [H ?]).
  repeat match goal with
    | X : negb _ = true |- _ => apply negb_true_iff in X
    | X : (_ <? _)%nat = false |- _ => apply Nat.ltb_ge in X
    end.
  repeat split; try assumption.
  - intros ->. discriminate.
  - now apply test_matches.
Qed.

Lemma isValidEmail_returns s : exists b, isValidEmail (VString s) = Normal b.
Proof. rewrite isValidEmail_string. eauto. Qed.

Lemma grammar_head s :
  email_grammar s -> exists c rest, s = c :: rest /\ is_local_char c = true.
Proof.
  intros (local & labels & -> & Hne & Hl & _).
  destruct local as [|c local]; [congruence |].
  simpl in Hl. apply andb_true_iff in Hl as [Hc _].
  exists c, (local ++ at_sign :: join_dots labels). auto.
Qed.

Lemma grammar_has_at s : email_grammar s -> In at_sign s.
Proof.
  intros (local & labels & -> & _). apply in_or_app. right. now left.
Qed.

End EmailFacts.

(** ** The email validator *)

Section EmailValidator.
Import JS Regex Newsletter Spec RegexFacts EmailFacts.

(** C2: [validateEmail] returns false on a candidate that is empty after
    trimming, or longer than 254 characters, or whose local part (before the
    first [@]) is longer than 64 characters, or that contains two consecutive
    dots, or that has no [@], or that is not in the email grammar. *)
Theorem validateEmail_rejects (candidate : jsstring) :
  trim candidate = []
  \/ (254 < length candidate)%nat
  \/ (64 < length (local_part candidate))%nat
  \/ consecutive_dots candidate
  \/ ~ In at_sign candidate
  \/ ~ email_grammar candidate ->
  validateEmail (VString candidate) = Normal false.
Proof.
  intros H. unfold validateEmail.
  destruct (isValidEmail_returns candidate) as ([|] & E); [exfalso | exact E].
  apply isValidEmail_true in E as (Hne & Hlen & Hm & Hdots & Hlocal).
  apply email_regex_in_grammar in Hm.
  destruct H as [H | [H | [H | [H | [H | H]]]]].
  - apply trim_nil in H as [-> | (c & rest & -> & Hw)]; [congruence |].
    apply grammar_head in Hm as (c' & rest' & [= <- <-] & Hc).
    apply local_char_not_whitespace in Hc. congruence.
  - lia.
  - lia.
  - apply consecutive_dots_included in H. congruence.
  - apply H, grammar_has_at, Hm.
  - apply H, Hm.
Qed.

Lemma validateEmail_rejects_witness :
  validateEmail (VString (lit "a..b@example.com")) = Normal false.
Proof.
  apply validateEmail_rejects.
  right; right; right; left.
  exists (lit "a"), (lit "b@example.com"). reflexivity.
Defined.

(** C9: [validateEmail] is true on ["user@example.com"], false on
    ["user..name@example.com"], false on the empty string, and true on
    ["a@b"], whose domain is a single label. *)
Theorem validateEmail_literals :
  validateEmail (VString (lit "user@example.com")) = Normal true
  /\ validateEmail (VString (lit "user..name@example.com")) = Normal false
  /\ validateEmail (VString (lit "")) = Normal false
  /\ validateEmail (VString (lit "a@b")) = Normal true.
Proof. repeat split; vm_compute; reflexivity. Qed.

(** C10: [validateEmail] never throws: on [null], [undefined] and every
    other input that is not a string it returns false, and on every string
    it returns a boolean. *)
Theorem validateEmail_total (input : value) :
  match input with
  | VString _ => exists b : bool, validateEmail input = Normal b
  | _ => validateEmail input = Normal false
  end.
Proof.
  destruct input as [ | | b | n | z | s | d | callable]; unfold validateEmail.
  - reflexivity.
  - reflexivity.
  - unfold isValidEmail. simpl. now rewrite orb_true_r.
  - unfold isValidEmail. simpl. now rewrite orb_true_r.
  - unfold isValidEmail. simpl. now rewrite orb_true_r.
  - apply isValidEmail_returns.
  - reflexivity.
  - unfold isValidEmail. destruct callable; reflexivity.
Qed.

End EmailValidator.

(** ** Form validation *)

Section FormValidation.
Import JS Regex Newsletter Spec RegexFacts EmailFacts.

(** C3: [validateForm] checks that the email is present, then that its
    format is valid, then (only when the form has a consent field) that
    consent is given, and returns the error of the first check that
    fails, one error at most: [EMPTY_EMAIL] whenever the email is blank
    after trimming, [INVALID_EMAIL] whenever it is not blank and not valid,
    [PRIVACY_NOT_ACCEPTED] exactly when the email is valid and the consent
    box is present and unchecked, and the normalised data otherwise. *)
Theorem validateForm_first_failure (f : form) (now : Z) :
  let email := trim (emailValue f) in
  (email = [] -> validateForm f now = Normal (Invalid EMPTY_EMAIL))
  /\ (email <> [] -> validateEmail (VString email) = Normal false ->
      validateForm f now = Normal (Invalid INVALID_EMAIL))
  /\ (validateForm f now = Normal (Invalid PRIVACY_NOT_ACCEPTED) <->
      email <> [] /\ validateEmail (VString email) = Normal true
      /\ privacyCheckbox f = Some false)
  /\ (email <> [] -> validateEmail (VString email) = Normal true ->
      privacyCheckbox f <> Some false ->
      validateForm f now =
      Normal (Valid {| Newsletter.email := email;
                       timestamp := now;
                       source := lit "landing_page" |})).
Proof.
  intros email. unfold validateForm, validateEmail. fold email.
  destruct (isValidEmail_returns email) as (valid & E). rewrite E.
  destruct email as [|c rest] eqn:Eemail; cbn [truthy negb cbind].
  - repeat split; try congruence.
    intros (H & _). congruence.
  - destruct valid; cbn [negb];
      destruct (privacyCheckbox f) as [[|]|];
      repeat split; try congruence; try discriminate;
      intros (_ & H & H'); congruence.
Qed.

Lemma validateForm_first_failure_witness :
  validateForm (mkForm (lit "  ") (Some false)) 0 = Normal (Invalid EMPTY_EMAIL)
  /\ validateForm (mkForm (lit "not an email") (Some false)) 0 = Normal (Invalid INVALID_EMAIL)
  /\ validateForm (mkForm (lit " a@b.co ") None) 7 =
     Normal (Valid (mkSubscription (lit "a@b.co") 7 (lit "landing_page"))).
Proof.
  split; [| split].
  - apply (validateForm_first_failure (mkForm (lit "  ") (Some false)) 0).
    reflexivity.
  - apply (validateForm_first_failure (mkForm (lit "not an email") (Some false)) 0).
    + discriminate.
    + reflexivity.
  - apply (validateForm_first_failure (mkForm (lit " a@b.co ") None) 7).
    + discriminate.
    + reflexivity.
    + discriminate.
Defined.

End FormValidation.

(** ** Facts about the handlers and the reachable worlds *)

Module StateFacts.
Import JS Regex Newsletter Spec RegexFacts EmailFacts.

Lemma validateForm_returns f now : exists v, validateForm f now = Normal v.
Proof.
  unfold validateForm.
  destruct (isValidEmail_returns (trim (emailValue f))) as (valid & ->).
  destruct (truthy _); cbn [negb cbind]; [| eauto].
  destruct valid; cbn [negb]; [| eauto].
  destruct (privacyCheckbox f) as [[|]|]; eauto.
Qed.

(** [checkRateLimit] decides on the count after the reset, and leaves
    that count in the state. *)
Lemma checkRateLimit_eq now s :
  checkRateLimit now s =
  (negb (maxSubmissionsPerWindow s <=? count_after_reset s now)%Z,
   set_submissionCount (count_after_reset s now) s).
Proof.
  unfold checkRateLimit, count_after_reset.
  destruct s as [i g l c win m]; cbn [rateLimitWindow lastSubmissionTime
    submissionCount maxSubmissionsPerWindow].
  destruct (win <? now - l)%Z;
    cbn [set_submissionCount rateLimitWindow lastSubmissionTime submissionCount
         maxSubmissionsPerWindow isInitialized isSubmitting];
    match goal with |- context [(?a <=? ?b)%Z] => destruct (a <=? b)%Z end;
    reflexivity.
Qed.

(** The four ways [handleFormSubmit] ends. *)
Lemma handleFormSubmit_eq f t_validate t_check w :
  handleFormSubmit f t_validate t_check w =
  if isSubmitting (st w) then (Normal tt, w)
  else
    match validateForm f t_validate with
    | Throw _ =>
        (Normal tt,
         {| st := st w; pending := pending w;
            ui := ShowError (ERROR_MESSAGES GENERIC_ERROR) :: ClearMessages :: ui w |})
    | Normal (Invalid err) =>
        (Normal tt,
         {| st := st w; pending := pending w;
            ui := FocusFirstError :: ShowError (ERROR_MESSAGES err)
                    :: ClearMessages :: ui w |})
    | Normal (Valid data) =>
        if fst (checkRateLimit t_check (st w)) then
          (Normal tt,
           {| st := set_isSubmitting true (snd (checkRateLimit t_check (st w)));
              pending := pending w ++ [data];
              ui := SetSubmittingState true :: ClearMessages :: ui w |})
        else
          (Normal tt,
           {| st := snd (checkRateLimit t_check (st w)); pending := pending w;
              ui := ShowError (ERROR_MESSAGES RATE_LIMIT) :: ClearMessages :: ui w |})
    end.
Proof.
  unfold handleFormSubmit, bind, get_state.
  destruct (isSubmitting (st w)); [reflexivity |].
  unfold try_catch, clearMessages, call, lift. cbn [st pending ui].
  destruct (validateForm f t_validate) as [[err | data] | e]; try reflexivity.
  unfold on_state. cbn [st pending ui].
  destruct (checkRateLimit t_check (st w)) as [[|] s]; reflexivity.
Qed.

Lemma submitForm_resume_eq o now w :
  fst (submitForm_resume o now w) = Normal tt
  /\ st (snd (submitForm_resume o now w)) = settled_state o now (st w)
  /\ pending (snd (submitForm_resume o now w)) = pending w.
Proof.
  destruct o as [r |]; [destruct r as [[|] m i e] |]; repeat split.
Qed.

Lemma run_app w events1 events2 :
  run w (events1 ++ events2) =
  match run w events1 with
  | Some w' => run w' events2
  | None => None
  end.
Proof.
  revert w. induction events1 as [|e events1 IH]; intros w; simpl; [reflexivity |].
  destruct (step w e); [apply IH | reflexivity].
Qed.

Lemma reachable_initial : reachable initial_world.
Proof. now exists []. Qed.

Lemma reachable_step w e w' : reachable w -> step w e = Some w' -> reachable w'.
Proof.
  intros [events H] S. exists (events ++ [e]).
  rewrite run_app, H. simpl. now rewrite S.
Qed.

Lemma reachable_run w events w' : reachable w -> run w events = Some w' -> reachable w'.
Proof.
  revert w. induction events as [|e events IH]; intros w R H; simpl in H.
  - now injection H as <-.
  - destruct (step w e) as [w1 |] eqn:S; [| discriminate].
    eapply IH; [eapply reachable_step; eassumption | exact H].
Qed.

(** Induction over the reachable worlds. *)
Lemma reachable_ind (P : world -> Prop) :
  P initial_world ->
  (forall w e w', reachable w -> P w -> step w e = Some w' -> P w') ->
  forall w, reachable w -> P w.
Proof.
  intros P0 Pstep w [events H]. revert w H.
  induction events as [|e events IH] using rev_ind; intros w H.
  - simpl in H. now injection H as <-.
  - rewrite run_app in H.
    destruct (run initial_world events) as [w1 |] eqn:R; [| discriminate].
    simpl in H. destruct (step w1 e) as [w2 |] eqn:S; [| discriminate].
    injection H as <-.
    apply (Pstep w1 e w2); [now exists events | now apply IH | exact S].
Qed.

Lemma count_after_reset_range s now :
  (0 <= submissionCount s)%Z ->
  (0 <= count_after_reset s now <= submissionCount s)%Z.
Proof.
  unfold count_after_reset. destruct (_ <? _)%Z; lia.
Qed.

Lemma invariant_initial : invariant initial_world.
Proof.
  constructor; simpl; try reflexivity; try lia; try discriminate.
Qed.

Lemma invariant_step w e w' : invariant w -> step w e = Some w' -> invariant w'.
Proof.
  intros [Hw Hm Hc Hi Hb] S.
  destruct e as [f tv tc | o now]; simpl in S.
  - injection S as <-.
    destruct (isSubmitting (st w)) eqn:G; rewrite handleFormSubmit_eq, G;
      [cbn [snd]; constructor; rewrite ?G; assumption |].
    specialize (Hi eq_refl).
    destruct (validateForm_returns f tv) as ([err | data] & ->).
    + constructor; cbn [snd st pending]; auto; congruence.
    + rewrite checkRateLimit_eq. cbn [fst snd].
      pose proof (count_after_reset_range (st w) tc (proj1 Hc)) as Hr.
      destruct (maxSubmissionsPerWindow (st w) <=? count_after_reset (st w) tc)%Z eqn:L;
        cbn [negb snd st pending set_isSubmitting set_submissionCount
             rateLimitWindow maxSubmissionsPerWindow submissionCount isSubmitting];
        constructor;
        cbn [snd st pending set_isSubmitting set_submissionCount
             rateLimitWindow maxSubmissionsPerWindow submissionCount isSubmitting];
        try assumption; try lia; try congruence.
      * intros _. apply Z.leb_gt in L. rewrite Hm in L. split; [lia |].
        rewrite Hi. now exists data.
  - destruct (pending w) as [|d others] eqn:P; [discriminate |].
    injection S as <-.
    destruct (submitForm_resume_eq o now {| st := st w; pending := others; ui := ui w |})
      as (_ & Es & Ep).
    cbn [st pending] in Es, Ep.
    destruct (bool_dec (isSubmitting (st w)) true) as [G | G];
      [| apply not_true_is_false in G; discriminate (Hi G)].
    destruct (Hb G) as (Hlt & d' & Hd). injection Hd as -> ->.
    constructor; rewrite ?Es, ?Ep;
      destruct o; cbn [settled_state set_isSubmitting set_submissionCount
        set_lastSubmissionTime rateLimitWindow maxSubmissionsPerWindow
        submissionCount isSubmitting]; try assumption; try lia; try congruence;
      try discriminate.
Qed.

Lemma reachable_invariant w : reachable w -> invariant w.
Proof.
  intros R. induction R using reachable_ind.
  - apply invariant_initial.
  - eapply invariant_step; eassumption.
Qed.

(** An accepted submission passed the guard, the validation and the rate
    limit, and started one transport call. *)
Lemma accepted_true w f t_validate t_check :
  accepted w f t_validate t_check = true ->
  isSubmitting (st w) = false
  /\ fst (checkRateLimit t_check (st w)) = true
  /\ exists data,
       validateForm f t_validate = Normal (Valid data)
       /\ st (snd (handleFormSubmit f t_validate t_check w)) =
          set_isSubmitting true (snd (checkRateLimit t_check (st w)))
       /\ pending (snd (handleFormSubmit f t_validate t_check w)) = pending w ++ [data].
Proof.
  unfold accepted. rewrite handleFormSubmit_eq. intros H.
  destruct (isSubmitting (st w)).
  { cbn [snd] in H. apply Nat.ltb_lt in H. lia. }
  destruct (validateForm_returns f t_validate) as ([err | data] & E);
    rewrite E in *.
  { cbn [snd pending] in H. apply Nat.ltb_lt in H. lia. }
  destruct (fst (checkRateLimit t_check (st w))).
  - repeat split. exists data. repeat split.
  - cbn [snd pending] in H. apply Nat.ltb_lt in H. lia.
Qed.

Lemma rejected_by_rate_limit w f t_validate t_check :
  fst (checkRateLimit t_check (st w)) = false ->
  accepted w f t_validate t_check = false.
Proof.
  unfold accepted. rewrite handleFormSubmit_eq. intros H.
  destruct (isSubmitting (st w)); [apply Nat.ltb_irrefl |].
  destruct (validateForm f t_validate) as [[err | data] | e];
    try apply Nat.ltb_irrefl.
  rewrite H. apply Nat.ltb_irrefl.
Qed.

Lemma accepted_valid w f t_validate t_check data :
  isSubmitting (st w) = false ->
  validateForm f t_validate = Normal (Valid data) ->
  fst (checkRateLimit t_check (st w)) = true ->
  accepted w f t_validate t_check = true.
Proof.
  unfold accepted. rewrite handleFormSubmit_eq. intros -> -> ->.
  cbn [snd pending]. rewrite length_app. apply Nat.ltb_lt. simpl. lia.
Qed.

(** One accepted submission whose transport call resolves: the count
    goes up by one from the count after the reset, which was below the
    limit, and the time of the resolution is recorded. *)
Lemma submission_round w w' f t_validate t_check r t_done :
  invariant w ->
  accepted w f t_validate t_check = true ->
  run w [FormSubmit f t_validate t_check; TransportSettles (Resolved r) t_done] = Some w' ->
  submissionCount (st w') = (count_after_reset (st w) t_check + 1)%Z
  /\ (count_after_reset (st w) t_check < 3)%Z
  /\ lastSubmissionTime (st w') = t_done
  /\ isSubmitting (st w') = false.
Proof.
  intros I A R.
  apply accepted_true in A as (G & C & data & _ & Es & Ep).
  pose proof (inv_idle I G) as P. rewrite P in Ep.
  cbn [run step] in R. rewrite Ep in R. cbn [app] in R.
  injection R as <-.
  destruct (submitForm_resume_eq (Resolved r) t_done
    {| st := st (snd (handleFormSubmit f t_validate t_check w)); pending := [];
       ui := ui (snd (handleFormSubmit f t_validate t_check w)) |}) as (_ & E & _).
  rewrite E. cbn [st]. rewrite Es.
  rewrite checkRateLimit_eq in *. cbn [fst snd] in *.
  apply negb_true_iff, Z.leb_gt in C. rewrite (inv_max I) in C.
  repeat split. exact C.
Qed.

Lemma no_reset s now :
  (now - lastSubmissionTime s <= rateLimitWindow s)%Z ->
  count_after_reset s now = submissionCount s.
Proof.
  unfold count_after_reset. intros H.
  destruct (Z.ltb_spec (rateLimitWindow s) (now - lastSubmissionTime s)); [lia | reflexivity].
Qed.

(** Three accepted submissions in a row, each within the window of the one
    before: the count is at the limit. *)
Lemma three_rounds w0 w1 w2 w3 f1 f2 f3 r1 r2 r3 tv1 tc1 td1 tv2 tc2 td2 tv3 tc3 td3 :
  reachable w0 ->
  accepted w0 f1 tv1 tc1 = true ->
  run w0 [FormSubmit f1 tv1 tc1; TransportSettles (Resolved r1) td1] = Some w1 ->
  accepted w1 f2 tv2 tc2 = true ->
  run w1 [FormSubmit f2 tv2 tc2; TransportSettles (Resolved r2) td2] = Some w2 ->
  accepted w2 f3 tv3 tc3 = true ->
  run w2 [FormSubmit f3 tv3 tc3; TransportSettles (Resolved r3) td3] = Some w3 ->
  (tc2 - td1 <= 60000)%Z -> (tc3 - td2 <= 60000)%Z ->
  reachable w3
  /\ submissionCount (st w3) = 3%Z
  /\ lastSubmissionTime (st w3) = td3
  /\ isSubmitting (st w3) = false.
Proof.
  intros R0 A1 S1 A2 S2 A3 S3 G2 G3.
  pose proof (reachable_run _ R0 S1) as R1.
  pose proof (reachable_run _ R1 S2) as R2.
  pose proof (reachable_run _ R2 S3) as R3.
  pose proof (reachable_invariant R0) as I0.
  pose proof (reachable_invariant R1) as I1.
  pose proof (reachable_invariant R2) as I2.
  destruct (@submission_round _ _ _ _ _ _ _ I0 A1 S1) as (C1 & B1 & L1 & _).
  destruct (@submission_round _ _ _ _ _ _ _ I1 A2 S2) as (C2 & B2 & L2 & _).
  destruct (@submission_round _ _ _ _ _ _ _ I2 A3 S3) as (C3 & B3 & L3 & K3).
  rewrite no_reset in C2, B2 by (rewrite L1, (inv_window I1); exact G2).
  rewrite no_reset in C3, B3 by (rewrite L2, (inv_window I2); exact G3).
  pose proof (count_after_reset_range (st w0) tc1 (proj1 (inv_count I0))).
  repeat split; try assumption. lia.
Qed.

Lemma at_limit_rejected w now :
  reachable w ->
  submissionCount (st w) = 3%Z ->
  (now - lastSubmissionTime (st w) <= 60000)%Z ->
  fst (checkRateLimit now (st w)) = false.
Proof.
  intros R C G. pose proof (reachable_invariant R) as I.
  rewrite checkRateLimit_eq. cbn [fst].
  rewrite no_reset by (rewrite (inv_window I); exact G).
  rewrite (inv_max I), C. reflexivity.
Qed.

Lemma past_window_allowed w now :
  reachable w ->
  (60000 < now - lastSubmissionTime (st w))%Z ->
  fst (checkRateLimit now (st w)) = true.
Proof.
  intros R G. pose proof (reachable_invariant R) as I.
  rewrite checkRateLimit_eq. cbn [fst]. unfold count_after_reset.
  rewrite (inv_window I), (inv_max I).
  destruct (Z.ltb_spec 60000 (now - lastSubmissionTime (st w))); [reflexivity | lia].
Qed.

(** Handling a form submission never raises the count. *)
Lemma handleFormSubmit_count w f t_validate t_check :
  (0 <= submissionCount (st w))%Z ->
  (submissionCount (st (snd (handleFormSubmit f t_validate t_check w)))
   <= submissionCount (st w))%Z.
Proof.
  intros H. rewrite handleFormSubmit_eq.
  pose proof (count_after_reset_range (st w) t_check H) as Hr.
  destruct (isSubmitting (st w)); [cbn [snd]; lia |].
  destruct (validateForm f t_validate) as [[err | data] | e];
    try (cbn [snd st]; lia).
  rewrite checkRateLimit_eq. cbn [fst snd].
  destruct (negb _); cbn [snd st set_isSubmitting set_submissionCount submissionCount]; lia.
Qed.

End StateFacts.

(** ** The rate limiter and the in-flight guard *)

Section RateLimiter.
Import JS Regex Newsletter Spec Examples RegexFacts EmailFacts StateFacts.
Local Open Scope Z_scope.

(** C4, as the code has it: [checkRateLimit] returns false exactly when the
    count after the reset consideration (0 once [now - lastSubmissionTime]
    exceeds the window, the stored count otherwise) has reached the
    maximum; it leaves that count in the state and never raises it; the
    count goes up by one exactly when a pending transport call resolves,
    whatever the response says. *)
Theorem checkRateLimit_decision (s : state) (now : Z) (w : world) :
  (fst (checkRateLimit now s) = false <->
   maxSubmissionsPerWindow s <= count_after_reset s now)
  /\ snd (checkRateLimit now s) = set_submissionCount (count_after_reset s now) s
  /\ (0 <= submissionCount s ->
      submissionCount (snd (checkRateLimit now s)) <= submissionCount s)
  /\ (reachable w ->
      forall e w', step w e = Some w' ->
        (submissionCount (st w') = submissionCount (st w) + 1 <->
         exists r t, e = TransportSettles (Resolved r) t)).
Proof.
  rewrite checkRateLimit_eq. cbn [fst snd].
  split; [| split; [reflexivity | split]].
  - rewrite negb_false_iff. apply Z.leb_le.
  - intros H. cbn [set_submissionCount submissionCount].
    apply (count_after_reset_range s now H).
  - intros R e w' S.
    pose proof (inv_count (reachable_invariant R)) as [C0 _].
    destruct e as [f tv tc | o t]; simpl in S.
    + injection S as <-.
      pose proof (handleFormSubmit_count w f tv tc C0).
      split; [lia | intros (r & t & E); discriminate E].
    + destruct (pending w) as [|d others]; [discriminate |]. injection S as <-.
      destruct (submitForm_resume_eq o t {| st := st w; pending := others; ui := ui w |})
        as (_ & E & _).
      rewrite E. cbn [st].
      destruct o as [r |]; cbn [settled_state set_isSubmitting set_submissionCount
                                submissionCount].
      * split; [eauto | reflexivity].
      * split; [lia | intros (r & t' & E'); discriminate E'].
Qed.

Lemma checkRateLimit_decision_witness :
  submissionCount (snd (checkRateLimit 70000 (st (world_after (round ok 0 1000))))) <= 1
  /\ forall w',
       step (world_after [FormSubmit valid_form 0 0]) (TransportSettles ok 1000) = Some w' ->
       submissionCount (st w') = 0 + 1.
Proof.
  split.
  - apply (checkRateLimit_decision (st (world_after (round ok 0 1000))) 70000 initial_world).
    vm_compute. discriminate.
  - intros w' S.
    apply (checkRateLimit_decision initial_state 0 (world_after [FormSubmit valid_form 0 0]))
      with (e := TransportSettles ok 1000).
    + exists [FormSubmit valid_form 0 0]. reflexivity.
    + exact S.
    + unfold ok, simulated_settlement. eauto.
Defined.

(** C4, as stated, fails: the count also goes up after a submit whose
    transport call resolved with a failure response. *)
Lemma increment_after_failed_submit :
  submissionCount (st (world_after [FormSubmit valid_form 0 0])) = 0
  /\ failure =
     Resolved {| success := false; message := None; subscriptionId := None;
                 error := Some (ERROR_MESSAGES GENERIC_ERROR) |}
  /\ option_map (fun w => submissionCount (st w))
       (step (world_after [FormSubmit valid_form 0 0]) (TransportSettles failure 1000))
     = Some 1.
Proof. repeat split. Qed.

(** C1, as the code has it: a transport call that rejects leaves the count
    and the time of the last submission as they were; one that resolves,
    with a failure response as with a success response, adds one to the
    count and records the time.  So after three failing submissions in a
    row within one window, a fourth submission within the same window is
    rejected by [checkRateLimit]. *)
Theorem failed_submissions_count_toward_limit
    (w0 w1 w2 w3 : world) (f1 f2 f3 : form) (r1 r2 r3 : response)
    (tv1 tc1 td1 tv2 tc2 td2 tv3 tc3 td3 t4 : Z) :
  reachable w0 ->
  success r1 = false -> success r2 = false -> success r3 = false ->
  accepted w0 f1 tv1 tc1 = true ->
  run w0 [FormSubmit f1 tv1 tc1; TransportSettles (Resolved r1) td1] = Some w1 ->
  accepted w1 f2 tv2 tc2 = true ->
  run w1 [FormSubmit f2 tv2 tc2; TransportSettles (Resolved r2) td2] = Some w2 ->
  accepted w2 f3 tv3 tc3 = true ->
  run w2 [FormSubmit f3 tv3 tc3; TransportSettles (Resolved r3) td3] = Some w3 ->
  td1 <= tc2 <= td2 -> td2 <= tc3 <= td3 -> td3 <= t4 -> t4 - td1 <= 60000 ->
  (forall w now,
      submissionCount (st (snd (submitForm_resume Rejected now w))) = submissionCount (st w)
      /\ lastSubmissionTime (st (snd (submitForm_resume Rejected now w))) =
         lastSubmissionTime (st w))
  /\ (forall w r now,
        submissionCount (st (snd (submitForm_resume (Resolved r) now w))) =
        submissionCount (st w) + 1
        /\ lastSubmissionTime (st (snd (submitForm_resume (Resolved r) now w))) = now)
  /\ submissionCount (st w3) = 3
  /\ fst (checkRateLimit t4 (st w3)) = false
  /\ (forall f tv, accepted w3 f tv t4 = false).
Proof.
  intros R0 _ _ _ A1 S1 A2 S2 A3 S3 T2 T3 T4 W.
  destruct (@three_rounds w0 w1 w2 w3 f1 f2 f3 r1 r2 r3 tv1 tc1 td1 tv2 tc2 td2 tv3 tc3 td3)
    as (R3 & C3 & L3 & _); try assumption; try lia.
  assert (K : fst (checkRateLimit t4 (st w3)) = false).
  { apply at_limit_rejected; [exact R3 | exact C3 | lia]. }
  split; [| split; [| split; [| split]]]; try assumption.
  - intros w now.
    destruct (submitForm_resume_eq Rejected now w) as (_ & -> & _). split; reflexivity.
  - intros w r now.
    destruct (submitForm_resume_eq (Resolved r) now w) as (_ & -> & _). split; reflexivity.
  - intros f tv. now apply rejected_by_rate_limit.
Qed.

Lemma failed_submissions_count_toward_limit_witness :
  run initial_world
    (round failure 0 1000 ++ round failure 2000 3000 ++ round failure 4000 5000)
  = Some failed_thrice
  /\ submissionCount (st failed_thrice) = 3
  /\ fst (checkRateLimit 6000 (st failed_thrice)) = false.
Proof.
  assert (R0 : reachable initial_world) by (exists []; reflexivity).
  assert (F : success failure_response = false) by reflexivity.
  assert (A1 : accepted initial_world valid_form 0 0 = true)
    by (vm_compute; reflexivity).
  assert (S1 : run initial_world
                 [FormSubmit valid_form 0 0; TransportSettles (Resolved failure_response) 1000]
               = Some failed_once) by (vm_compute; reflexivity).
  assert (A2 : accepted failed_once valid_form 2000 2000 = true)
    by (vm_compute; reflexivity).
  assert (S2 : run failed_once
                 [FormSubmit valid_form 2000 2000; TransportSettles (Resolved failure_response) 3000]
               = Some failed_twice) by (vm_compute; reflexivity).
  assert (A3 : accepted failed_twice valid_form 4000 4000 = true)
    by (vm_compute; reflexivity).
  assert (S3 : run failed_twice
                 [FormSubmit valid_form 4000 4000; TransportSettles (Resolved failure_response) 5000]
               = Some failed_thrice) by (vm_compute; reflexivity).
  assert (T2 : 1000 <= 2000 <= 3000) by lia.
  assert (T3 : 3000 <= 4000 <= 5000) by lia.
  assert (T4 : 5000 <= 6000) by lia.
  assert (W : 6000 - 1000 <= 60000) by lia.
  destruct (@failed_submissions_count_toward_limit
              initial_world failed_once failed_twice failed_thrice
              valid_form valid_form valid_form
              failure_response failure_response failure_response
              0 0 1000 2000 2000 3000 4000 4000 5000 6000
              R0 F F F A1 S1 A2 S2 A3 S3 T2 T3 T4 W)
    as (_ & _ & C & K & _).
  split; [vm_compute; reflexivity | split; [exact C | exact K]].
Defined.

(** C1, as stated, fails: one submission whose transport call resolves with
    the failure response moves the count from 0 to 1 and the time of the
    last submission from 0 to 1000, and after three of them within six
    seconds the fourth is rejected. *)
Lemma failing_submissions_use_up_the_limit :
  failure =
    Resolved {| success := false; message := None; subscriptionId := None;
                error := Some (ERROR_MESSAGES GENERIC_ERROR) |}
  /\ option_map (fun w => (submissionCount (st w), lastSubmissionTime (st w)))
       (run initial_world (round failure 0 1000)) = Some (1, 1000)
  /\ option_map (fun w => (submissionCount (st w), fst (checkRateLimit 6000 (st w)),
                           accepted w valid_form 6000 6000))
       (run initial_world (round failure 0 1000 ++ round failure 2000 3000
                           ++ round failure 4000 5000))
     = Some (3, false, false).
Proof. repeat split; vm_compute; reflexivity. Qed.

(** C5, as the code has it, with 3 submissions per window of 60000 ms:
    after three accepted submissions within one window, a fourth attempt
    within the same window is rejected by [checkRateLimit]; once more than
    60000 ms have passed since the last of those submissions, a submission
    is accepted again. *)
Theorem three_per_window
    (w0 w1 w2 w3 : world) (f1 f2 f3 : form) (r1 r2 r3 : response)
    (tv1 tc1 td1 tv2 tc2 td2 tv3 tc3 td3 : Z) :
  reachable w0 ->
  accepted w0 f1 tv1 tc1 = true ->
  run w0 [FormSubmit f1 tv1 tc1; TransportSettles (Resolved r1) td1] = Some w1 ->
  accepted w1 f2 tv2 tc2 = true ->
  run w1 [FormSubmit f2 tv2 tc2; TransportSettles (Resolved r2) td2] = Some w2 ->
  accepted w2 f3 tv3 tc3 = true ->
  run w2 [FormSubmit f3 tv3 tc3; TransportSettles (Resolved r3) td3] = Some w3 ->
  td1 <= tc2 <= td2 -> td2 <= tc3 <= td3 -> tc3 - td1 <= 60000 ->
  rateLimitWindow (st w3) = 60000 /\ maxSubmissionsPerWindow (st w3) = 3
  /\ (forall t4, td3 <= t4 -> t4 - td1 <= 60000 ->
      fst (checkRateLimit t4 (st w3)) = false
      /\ forall f tv, accepted w3 f tv t4 = false)
  /\ (forall t, 60000 < t - td3 ->
      fst (checkRateLimit t (st w3)) = true
      /\ forall f tv data, validateForm f tv = Normal (Valid data) ->
           accepted w3 f tv t = true).
Proof.
  intros R0 A1 S1 A2 S2 A3 S3 T2 T3 W.
  destruct (@three_rounds w0 w1 w2 w3 f1 f2 f3 r1 r2 r3 tv1 tc1 td1 tv2 tc2 td2 tv3 tc3 td3)
    as (R3 & C3 & L3 & G3); try assumption; try lia.
  pose proof (reachable_invariant R3) as I3.
  split; [exact (inv_window I3) |]. split; [exact (inv_max I3) |]. split.
  - intros t4 T4 W4.
    assert (K : fst (checkRateLimit t4 (st w3)) = false).
    { apply at_limit_rejected; [exact R3 | exact C3 | lia]. }
    split; [exact K |]. intros f tv. now apply rejected_by_rate_limit.
  - intros t T.
    assert (K : fst (checkRateLimit t (st w3)) = true).
    { apply past_window_allowed; [exact R3 | lia]. }
    split; [exact K |]. intros f tv data V.
    now apply accepted_valid with (data := data).
Qed.

Lemma three_per_window_witness :
  run initial_world (round ok 0 1000 ++ round ok 20000 21000 ++ round ok 40000 41000)
  = Some subscribed_thrice
  /\ fst (checkRateLimit 59000 (st subscribed_thrice)) = false
  /\ fst (checkRateLimit 101001 (st subscribed_thrice)) = true.
Proof.
  assert (R0 : reachable initial_world) by (exists []; reflexivity).
  assert (A1 : accepted initial_world valid_form 0 0 = true)
    by (vm_compute; reflexivity).
  assert (S1 : run initial_world
                 [FormSubmit valid_form 0 0; TransportSettles (Resolved ok_response) 1000]
               = Some subscribed_once) by (vm_compute; reflexivity).
  assert (A2 : accepted subscribed_once valid_form 20000 20000 = true)
    by (vm_compute; reflexivity).
  assert (S2 : run subscribed_once
                 [FormSubmit valid_form 20000 20000; TransportSettles (Resolved ok_response) 21000]
               = Some subscribed_twice) by (vm_compute; reflexivity).
  assert (A3 : accepted subscribed_twice valid_form 40000 40000 = true)
    by (vm_compute; reflexivity).
  assert (S3 : run subscribed_twice
                 [FormSubmit valid_form 40000 40000; TransportSettles (Resolved ok_response) 41000]
               = Some subscribed_thrice) by (vm_compute; reflexivity).
  assert (T2 : 1000 <= 20000 <= 21000) by lia.
  assert (T3 : 21000 <= 40000 <= 41000) by lia.
  assert (W : 40000 - 1000 <= 60000) by lia.
  destruct (@three_per_window
              initial_world subscribed_once subscribed_twice subscribed_thrice
              valid_form valid_form valid_form
              ok_response ok_response ok_response
              0 0 1000 20000 20000 21000 40000 40000 41000
              R0 A1 S1 A2 S2 A3 S3 T2 T3 W)
    as (_ & _ & In_window & Past_window).
  assert (T4 : 41000 <= 59000) by lia.
  assert (W4 : 59000 - 1000 <= 60000) by lia.
  assert (P : 60000 < 101001 - 41000) by lia.
  destruct (In_window 59000 T4 W4) as [K _].
  destruct (Past_window 101001 P) as [K' _].
  split; [vm_compute; reflexivity | split; [exact K | exact K']].
Defined.

(** C5, as stated, fails: with submissions resolved at 1000, 21000 and
    41000, the attempt at 61001 comes more than 60000 ms after the first
    submission and is still rejected, the window being counted from the
    last one. *)
Lemma window_runs_from_last_submission :
  option_map (fun w => (submissionCount (st w), lastSubmissionTime (st w),
                        fst (checkRateLimit 61001 (st w)),
                        accepted w valid_form 61001 61001))
    (run initial_world (round ok 0 1000 ++ round ok 20000 21000 ++ round ok 40000 41000))
  = Some (3, 41000, false, false)
  /\ 60000 < 61001 - 1000.
Proof. split; [vm_compute; reflexivity | lia]. Qed.

(** C6: while a submission is in flight (the guard [isSubmitting] is set,
    which is exactly while a transport call is pending), every form
    submission returns at once and leaves the world as it is, so no second
    transport call is started: at most one call is ever pending, and a
    call is only started when none is. *)
Theorem single_flight (w : world) :
  reachable w ->
  (length (pending w) <= 1)%nat
  /\ (isSubmitting (st w) = true <-> pending w <> [])
  /\ (forall f tv tc,
        isSubmitting (st w) = true ->
        handleFormSubmit f tv tc w = (Normal tt, w))
  /\ (forall f tv tc,
        pending (snd (handleFormSubmit f tv tc w)) <> pending w ->
        isSubmitting (st w) = false /\ pending w = []).
Proof.
  intros R. pose proof (reachable_invariant R) as I.
  assert (G : isSubmitting (st w) = true <-> pending w <> []).
  { split.
    - intros B. destruct (inv_busy I B) as (_ & d & ->). discriminate.
    - intros P. destruct (isSubmitting (st w)) eqn:E; [reflexivity |].
      elim P. apply (inv_idle I). exact E. }
  split; [| split; [exact G |split]].
  - destruct (isSubmitting (st w)) eqn:E.
    + destruct (inv_busy I E) as (_ & d & ->). simpl. lia.
    + rewrite (inv_idle I E). simpl. lia.
  - intros f tv tc B. rewrite handleFormSubmit_eq, B. reflexivity.
  - intros f tv tc P. destruct (isSubmitting (st w)) eqn:E.
    + rewrite handleFormSubmit_eq, E in P. now elim P.
    + split; [reflexivity | apply (inv_idle I E)].
Qed.

Lemma single_flight_witness :
  handleFormSubmit valid_form 500 500 (world_after [FormSubmit valid_form 0 0])
  = (Normal tt, world_after [FormSubmit valid_form 0 0]).
Proof.
  assert (R : reachable (world_after [FormSubmit valid_form 0 0]))
    by (exists [FormSubmit valid_form 0 0]; reflexivity).
  destruct (single_flight R) as (_ & _ & Busy & _).
  apply Busy. reflexivity.
Defined.

(** C7: when the transport call settles, with a success response, a
    failure response or a rejection, [submitForm] ends with the guard
    [isSubmitting] released; so in every reachable world where the guard is
    set a call is pending, and its settling releases the guard. *)
Theorem guard_released (w : world) (o : settlement) (now : Z) :
  isSubmitting (st (snd (submitForm_resume o now w))) = false
  /\ (reachable w -> isSubmitting (st w) = true ->
      exists w', step w (TransportSettles o now) = Some w'
                 /\ isSubmitting (st w') = false
                 /\ pending w' = []).
Proof.
  split.
  - destruct (submitForm_resume_eq o now w) as (_ & -> & _).
    destruct o; reflexivity.
  - intros R B.
    destruct (inv_busy (reachable_invariant R) B) as (_ & d & P).
    simpl. rewrite P.
    eexists. split; [reflexivity |].
    destruct (submitForm_resume_eq o now {| st := st w; pending := []; ui := ui w |})
      as (_ & -> & ->).
    split; [destruct o; reflexivity | reflexivity].
Qed.

Lemma guard_released_witness :
  exists w',
    step (world_after [FormSubmit valid_form 0 0]) (TransportSettles Rejected 1000) = Some w'
    /\ isSubmitting (st w') = false
    /\ pending w' = [].
Proof.
  apply (guard_released (world_after [FormSubmit valid_form 0 0]) Rejected 1000).
  - exists [FormSubmit valid_form 0 0]. reflexivity.
  - reflexivity.
Defined.

(** C8: in every reachable world, a check that sees
    [now - lastSubmissionTime] above the window leaves the count at 0, and
    a check that does not leaves the count alone; nothing else lowers the
    count (the settling of a transport call keeps it or adds one).  The
    count never exceeds the maximum, and is below it in the state an
    accepted submission leaves. *)
Theorem rate_limit_invariant (w : world) :
  reachable w ->
  (forall now,
      rateLimitWindow (st w) < now - lastSubmissionTime (st w) ->
      submissionCount (snd (checkRateLimit now (st w))) = 0)
  /\ (forall now,
        now - lastSubmissionTime (st w) <= rateLimitWindow (st w) ->
        submissionCount (snd (checkRateLimit now (st w))) = submissionCount (st w))
  /\ 0 <= submissionCount (st w) <= maxSubmissionsPerWindow (st w)
  /\ (forall f tv tc,
        accepted w f tv tc = true ->
        submissionCount (st (snd (handleFormSubmit f tv tc w)))
        < maxSubmissionsPerWindow (st w))
  /\ (forall o now w',
        step w (TransportSettles o now) = Some w' ->
        submissionCount (st w) <= submissionCount (st w') <= maxSubmissionsPerWindow (st w')).
Proof.
  intros R. pose proof (reachable_invariant R) as I.
  split; [| split; [| split; [| split]]].
  - intros now H. rewrite checkRateLimit_eq. cbn [snd set_submissionCount submissionCount].
    unfold count_after_reset.
    destruct (Z.ltb_spec (rateLimitWindow (st w)) (now - lastSubmissionTime (st w)));
      [reflexivity | lia].
  - intros now H. rewrite checkRateLimit_eq. cbn [snd set_submissionCount submissionCount].
    now apply no_reset.
  - rewrite (inv_max I). exact (inv_count I).
  - intros f tv tc A.
    apply accepted_true in A as (_ & C & data & _ & -> & _).
    rewrite checkRateLimit_eq in *. cbn [fst snd] in *.
    cbn [set_isSubmitting set_submissionCount submissionCount].
    apply negb_true_iff, Z.leb_gt in C. exact C.
  - intros o now w' S.
    pose proof (invariant_step _ I S) as I'.
    rewrite (inv_max I'). split; [| exact (proj2 (inv_count I'))].
    simpl in S. destruct (pending w) as [|d others]; [discriminate |].
    injection S as <-.
    destruct (submitForm_resume_eq o now {| st := st w; pending := others; ui := ui w |})
      as (_ & -> & _).
    destruct o; cbn [st settled_state set_isSubmitting set_submissionCount
                     set_lastSubmissionTime submissionCount]; lia.
Qed.

Lemma rate_limit_invariant_witness :
  submissionCount (snd (checkRateLimit 101001 (st subscribed_thrice))) = 0
  /\ 0 <= submissionCount (st subscribed_thrice) <= 3.
Proof.
  assert (R : reachable subscribed_thrice).
  { exists (round ok 0 1000 ++ round ok 20000 21000 ++ round ok 40000 41000).
    vm_compute. reflexivity. }
  destruct (rate_limit_invariant R) as (Reset & _ & Range & _).
  split; [| exact Range].
  apply Reset. vm_compute. reflexivity.
Defined.

End RateLimiter.

(** ** More about the accepted addresses *)

Module AddressFacts.
Import JS Regex Newsletter Spec DomSpec RegexFacts EmailFacts.

Lemma startsWith_true sub : forall s,
  startsWith s sub = true -> exists rest, s = sub ++ rest.
Proof.
  induction sub as [|a sub IH]; intros s H; simpl in H.
  - now exists s.
  - destruct s as [|b s]; [discriminate |].
    apply andb_true_iff in H as [E H]. apply N.eqb_eq in E as ->.
    destruct (IH s H) as (rest & ->). now exists rest.
Qed.

Lemma includes_true sub : forall s,
  includes s sub = true -> exists before after, s = before ++ sub ++ after.
Proof.
  induction s as [|c s IH]; simpl; intros H.
  - rewrite orb_false_r in H. apply startsWith_true in H as (rest & E).
    exists [], rest. exact E.
  - apply orb_true_iff in H as [H | H].
    + apply startsWith_true in H as (rest & E). exists [], rest. exact E.
    + destruct (IH H) as (before & after & ->). now exists (c :: before), after.
Qed.

Lemma includes_dots s : includes s (lit "..") = true <-> consecutive_dots s.
Proof.
  split; [| apply consecutive_dots_included].
  intros H. apply includes_true in H as (before & after & ->).
  now exists before, after.
Qed.

Lemma local_char_printable c : is_local_char c = true -> printable c.
Proof.
  unfold is_local_char, in_class, local_class, range, chr, printable. simpl.
  intros H. bool_to_prop; lia.
Qed.

Lemma label_char_printable c :
  is_alnum c || (c =? hyphen)%N = true -> printable c /\ c <> at_sign.
Proof.
  unfold is_alnum, hyphen, at_sign, printable.
  change (unit_of "a") with 97%N; change (unit_of "z") with 122%N;
    change (unit_of "A") with 65%N; change (unit_of "Z") with 90%N;
    change (unit_of "0") with 48%N; change (unit_of "9") with 57%N;
    change (unit_of "-") with 45%N; change (unit_of "@") with 64%N.
  intros H. bool_to_prop; lia.
Qed.

Lemma valid_label_chars l :
  valid_label l = true -> l <> [] /\ Forall (fun c => printable c /\ c <> at_sign) l.
Proof.
  unfold valid_label. intros H.
  repeat (apply andb_true_iff in H; destruct H as [H ?]).
  apply Nat.leb_le in H. split.
  - intros ->. simpl in H. lia.
  - apply Forall_forall. intros c Hc. apply label_char_printable.
    match goal with F : forallb _ l = true |- _ =>
      rewrite forallb_forall in F; now apply F end.
Qed.

Lemma join_dots_chars labels :
  labels <> [] -> forallb valid_label labels = true ->
  join_dots labels <> []
  /\ Forall (fun c => printable c /\ c <> at_sign) (join_dots labels).
Proof.
  intros Hne F. destruct labels as [|l labels]; [congruence |]. clear Hne.
  rewrite join_dots_cons. simpl in F. apply andb_true_iff in F as [Fl Fs].
  apply valid_label_chars in Fl as [Hl Al]. split.
  - destruct l; [congruence | discriminate].
  - apply Forall_app. split; [exact Al |].
    induction labels as [|l' labels IH]; simpl; [constructor |].
    simpl in Fs. apply andb_true_iff in Fs as [Fl' Fs].
    apply valid_label_chars in Fl' as [_ Al'].
    constructor; [| apply Forall_app; split; [exact Al' | now apply IH]].
    unfold printable, dot, at_sign.
    change (unit_of ".") with 46%N. change (unit_of "@") with 64%N. lia.
Qed.

Lemma local_chars local :
  forallb is_local_char local = true ->
  Forall (fun c => printable c /\ c <> at_sign) local.
Proof.
  intros F. apply Forall_forall. intros c Hc.
  rewrite forallb_forall in F. specialize (F c Hc). split.
  - now apply local_char_printable.
  - now apply local_char_not_at.
Qed.

Lemma takeWhile_until local rest :
  Forall (fun c => c <> at_sign) local ->
  local_part (local ++ at_sign :: rest) = local.
Proof.
  unfold local_part. induction 1 as [|c local Hc _ IH].
  - reflexivity.
  - apply N.eqb_neq in Hc. cbn [app takeWhile]. rewrite Hc. cbn [negb].
    now rewrite IH.
Qed.

Lemma count_none (s : jsstring) :
  Forall (fun c => c <> at_sign) s -> @count_occ code_unit N.eq_dec s at_sign = 0%nat.
Proof.
  intros F. apply count_occ_not_In. intros H.
  rewrite Forall_forall in F. now apply (F at_sign).
Qed.

Lemma Forall_weaken (P Q : code_unit -> Prop) s :
  (forall c, P c -> Q c) -> Forall P s -> Forall Q s.
Proof. intros PQ F. eapply Forall_impl; eassumption. Qed.

(** A string that begins and ends with something other than whitespace is
    its own trim. *)
Lemma trimStart_keeps c s : is_whitespace c = false -> trimStart (c :: s) = c :: s.
Proof. intros H. simpl. now rewrite H. Qed.

Lemma printable_not_whitespace c : printable c -> is_whitespace c = false.
Proof.
  unfold printable. intros B.
  destruct (is_whitespace c) eqn:W; [| reflexivity].
  unfold is_whitespace in W. bool_to_prop; lia.
Qed.

Lemma trim_printable s : Forall printable s -> trim s = s.
Proof.
  intros F. unfold trim, trimEnd.
  assert (S1 : trimStart s = s).
  { destruct F as [|c s Hc _]; [reflexivity |].
    now apply trimStart_keeps, printable_not_whitespace. }
  rewrite S1.
  assert (F' : Forall printable (rev s)) by now apply Forall_rev.
  assert (S2 : trimStart (rev s) = rev s).
  { destruct F' as [|c t Hc _]; [reflexivity |].
    now apply trimStart_keeps, printable_not_whitespace. }
  rewrite S2. apply rev_involutive.
Qed.

(** The shape of a string in the email grammar. *)
Lemma grammar_shape s :
  email_grammar s ->
  Forall printable s
  /\ @count_occ code_unit N.eq_dec s at_sign = 1%nat
  /\ (1 <= length (local_part s))%nat
  /\ (length (local_part s) + 2 <= length s)%nat.
Proof.
  intros (local & labels & -> & Hne & Hl & Hlabels & F).
  apply local_chars in Hl.
  destruct (join_dots_chars Hlabels F) as [Jne J].
  assert (Nl : Forall (fun c => c <> at_sign) local)
    by (eapply Forall_weaken; [| exact Hl]; now intros c [_ H]).
  assert (Nj : Forall (fun c => c <> at_sign) (join_dots labels))
    by (eapply Forall_weaken; [| exact J]; now intros c [_ H]).
  rewrite takeWhile_until by exact Nl.
  repeat split.
  - apply Forall_app. split.
    + eapply Forall_weaken; [| exact Hl]. now intros c [H _].
    + constructor.
      * unfold printable, at_sign. change (unit_of "@") with 64%N. lia.
      * eapply Forall_weaken; [| exact J]. now intros c [H _].
  - rewrite count_occ_app, count_occ_cons_eq by reflexivity.
    rewrite (count_none Nl), (count_none Nj). reflexivity.
  - destruct local; [congruence | simpl; lia].
  - rewrite length_app. simpl.
    destruct (join_dots labels); [congruence | simpl; lia].
Qed.

(** *** Trimming *)

Lemma trimStart_all s : forallb is_whitespace s = true -> trimStart s = [].
Proof.
  induction s as [|c s IH]; simpl; [reflexivity |].
  intros H. apply andb_true_iff in H as [-> H]. now apply IH.
Qed.

Lemma trimStart_padding padding s :
  forallb is_whitespace padding = true -> trimStart (padding ++ s) = trimStart s.
Proof.
  induction padding as [|c padding IH]; simpl; [reflexivity |].
  intros H. apply andb_true_iff in H as [-> H]. now apply IH.
Qed.

Lemma trimStart_app s rest :
  trimStart s <> [] -> trimStart (s ++ rest) = trimStart s ++ rest.
Proof.
  induction s as [|c s IH]; simpl; [congruence |].
  destruct (is_whitespace c); [exact IH | reflexivity].
Qed.

Lemma forallb_rev (p : code_unit -> bool) s :
  forallb p s = true -> forallb p (rev s) = true.
Proof.
  rewrite !forallb_forall. intros H c Hc. apply H. now apply in_rev.
Qed.

Lemma trimEnd_padding s padding :
  forallb is_whitespace padding = true -> trimEnd (s ++ padding) = trimEnd s.
Proof.
  intros H. unfold trimEnd. rewrite rev_app_distr.
  rewrite trimStart_padding by now apply forallb_rev. reflexivity.
Qed.

Lemma trim_padding before s after :
  forallb is_whitespace before = true ->
  forallb is_whitespace after = true ->
  trim (before ++ s ++ after) = trim s.
Proof.
  intros Hb Ha. unfold trim. rewrite trimStart_padding by exact Hb.
  destruct (trimStart s) as [|c t] eqn:E.
  - apply trimStart_nil in E.
    rewrite trimStart_all; [reflexivity |].
    rewrite forallb_app, E, Ha. reflexivity.
  - rewrite trimStart_app by (rewrite E; discriminate).
    rewrite E. now apply trimEnd_padding.
Qed.

End AddressFacts.

(** ** The addresses the validator accepts *)

Section AcceptedAddresses.
  Import JS Regex Newsletter Spec RegexFacts EmailFacts AddressFacts.

(** X1: [EMAIL_REGEX] matches a string exactly when the string is a
    non-empty run of local-part characters, an [@], and one or more valid
    labels separated by dots. *)
Theorem email_regex_is_grammar (s : jsstring) :
  test EMAIL_REGEX s = true <-> email_grammar s.
Proof.
  rewrite test_matches. split.
  - apply email_regex_in_grammar.
  - apply grammar_in_email_regex.
Qed.

(** X2: [validateEmail] accepts a string exactly when it has at most 254
    code units, is in the email grammar, has no two consecutive dots, and
    has a local part of at most 64 code units. *)
Theorem validateEmail_accepts_exactly (s : jsstring) :
  validateEmail (VString s) = Normal true <->
  (length s <= 254)%nat /\ email_grammar s /\ ~ consecutive_dots s
  /\ (length (local_part s) <= 64)%nat.
Proof.
  unfold validateEmail. split.
  - intros H. apply isValidEmail_true in H as (_ & L & M & D & P).
    repeat split; try assumption.
    + now apply email_regex_in_grammar.
    + intros C. apply includes_dots in C. congruence.
  - intros (L & G & D & P). rewrite isValidEmail_string.
    destruct (grammar_head G) as (c & rest & -> & _).
    apply grammar_in_email_regex, test_matches in G. rewrite G.
    apply Nat.ltb_ge in L, P. rewrite L, P.
    destruct (includes (c :: rest) (lit "..")) eqn:I.
    + apply includes_dots in I. contradiction.
    + reflexivity.
Qed.

(** X3: an address that [validateEmail] accepts is made of printable ASCII
    only (code units 33 to 126: no whitespace, no control or non-ASCII
    character) and contains exactly one [@]. *)
Theorem accepted_address_characters (s : jsstring) :
  validateEmail (VString s) = Normal true ->
  Forall (fun c => (33 <= c <= 126)%N) s
  /\ @count_occ code_unit N.eq_dec s at_sign = 1%nat.
Proof.
  intros H. apply isValidEmail_true in H as (_ & _ & M & _).
  apply email_regex_in_grammar, grammar_shape in M as (P & C & _).
  split; [exact P | exact C].
Qed.

Lemma accepted_address_characters_witness :
  @count_occ code_unit N.eq_dec (lit "user@example.com") at_sign = 1%nat.
Proof.
  apply (accepted_address_characters (lit "user@example.com")).
  vm_compute. reflexivity.
Defined.

(** X4: an address that [validateEmail] accepts has between 3 and 254 code
    units, a local part of 1 to 64 code units followed by at least two
    more, and no whitespace at either end: trimming it changes nothing. *)
Theorem accepted_address_size (s : jsstring) :
  validateEmail (VString s) = Normal true ->
  (3 <= length s <= 254)%nat
  /\ (1 <= length (local_part s) <= 64)%nat
  /\ (length (local_part s) + 2 <= length s)%nat
  /\ trim s = s.
Proof.
  intros H. apply isValidEmail_true in H as (_ & L & M & _ & P).
  apply email_regex_in_grammar, grammar_shape in M as (F & _ & Q & R).
  repeat split; try lia. now apply trim_printable.
Qed.

Lemma accepted_address_size_witness : trim (lit "a@b") = lit "a@b".
Proof.
  apply (accepted_address_size (lit "a@b")). vm_compute. reflexivity.
Defined.

(** X5: whitespace around the value of the email input does not count:
    [validateForm] gives the same result with and without it. *)
Theorem validateForm_ignores_padding
    (before value after : jsstring) (box : option bool) (now : Z) :
  forallb is_whitespace before = true ->
  forallb is_whitespace after = true ->
  validateForm (mkForm (before ++ value ++ after) box) now =
  validateForm (mkForm value box) now.
Proof.
  intros Hb Ha. unfold validateForm. cbn [emailValue privacyCheckbox].
  rewrite (trim_padding before value after Hb Ha). reflexivity.
Qed.

Lemma validateForm_ignores_padding_witness :
  validateForm (mkForm (lit "  " ++ lit "a@b.co" ++ lit " ") None) 5 =
  validateForm (mkForm (lit "a@b.co") None) 5.
Proof.
  apply validateForm_ignores_padding; reflexivity.
Defined.

(** X6: the data that [validateForm] returns carry the trimmed value of
    the input, which [validateEmail] accepts and which trimming again
    leaves as it is, the time given, and the source tag; the consent box,
    if there is one, is checked. *)
Theorem validateForm_data (f : form) (now : Z) (data : subscription) :
  validateForm f now = Normal (Valid data) ->
  email data = trim (emailValue f)
  /\ validateEmail (VString (email data)) = Normal true
  /\ trim (email data) = email data
  /\ timestamp data = now
  /\ source data = lit "landing_page"
  /\ privacyCheckbox f <> Some false.
Proof.
  unfold validateForm, validateEmail. intros H.
  destruct (isValidEmail_returns (trim (emailValue f))) as (valid & E).
  rewrite E in H.
  destruct (truthy (VString (trim (emailValue f)))); cbn [negb cbind] in H;
    [| discriminate].
  destruct valid; cbn [negb] in H; [| discriminate].
  assert (T : trim (trim (emailValue f)) = trim (emailValue f)).
  { apply isValidEmail_true in E as (_ & _ & M & _).
    apply email_regex_in_grammar, grammar_shape in M as (F & _).
    now apply trim_printable. }
  destruct (privacyCheckbox f) as [[|]|]; try discriminate;
    injection H as <-; cbn [email timestamp source];
    repeat split; try assumption; discriminate.
Qed.

Lemma validateForm_data_witness :
  validateEmail (VString (lit "a@b.co")) = Normal true.
Proof.
  apply (@validateForm_data (mkForm (lit " a@b.co ") None) 7
           (mkSubscription (lit "a@b.co") 7 (lit "landing_page"))).
  vm_compute. reflexivity.
Defined.

End AcceptedAddresses.

(** ** Facts about class lists and attributes *)

Module DomFacts.
Import JS Newsletter Dom.

Lemma string_eqb_eq a : forall b, string_eqb a b = true <-> a = b.
Proof.
  induction a as [|x a IH]; intros [|y b]; simpl; split; try congruence; try discriminate.
  - intros H. apply andb_true_iff in H as [E H]. apply N.eqb_eq in E as ->.
    now apply IH in H as ->.
  - intros [= -> ->]. rewrite N.eqb_refl. now apply IH.
Qed.

Lemma string_eqb_refl a : string_eqb a a = true.
Proof. now apply string_eqb_eq. Qed.

Lemma string_eqb_sym a b : string_eqb a b = string_eqb b a.
Proof.
  destruct (string_eqb a b) eqn:E.
  - apply string_eqb_eq in E as ->. symmetry. apply string_eqb_refl.
  - destruct (string_eqb b a) eqn:E'; [| reflexivity].
    apply string_eqb_eq in E' as ->. now rewrite string_eqb_refl in E.
Qed.

Lemma contains_app tokens more token :
  contains (tokens ++ more) token = contains tokens token || contains more token.
Proof. unfold contains. apply existsb_app. Qed.

Lemma contains_add_same tokens token : contains (add tokens token) token = true.
Proof.
  unfold add. destruct (contains tokens token) eqn:E; [exact E |].
  rewrite contains_app. simpl. now rewrite string_eqb_refl, orb_true_r.
Qed.

Lemma contains_add_other tokens token other :
  string_eqb other token = false ->
  contains (add tokens token) other = contains tokens other.
Proof.
  intros H. unfold add. destruct (contains tokens token); [reflexivity |].
  rewrite contains_app. simpl. now rewrite H, !orb_false_r.
Qed.

Lemma contains_remove tokens gone token :
  contains (remove tokens gone) token = contains tokens token && negb (contains gone token).
Proof.
  unfold remove. induction tokens as [|t tokens IH]; simpl; [reflexivity |].
  destruct (contains gone t) eqn:G; simpl.
  - rewrite IH. destruct (string_eqb token t) eqn:E; [| reflexivity].
    apply string_eqb_eq in E as ->. rewrite G. simpl.
    now rewrite andb_false_r.
  - rewrite IH. destruct (string_eqb token t) eqn:E; [| reflexivity].
    apply string_eqb_eq in E as ->. now rewrite G.
Qed.

Lemma lookup_store_same attrs name value : lookup (store attrs name value) name = Some value.
Proof.
  induction attrs as [|[n v] attrs IH]; simpl.
  - now rewrite string_eqb_refl.
  - destruct (string_eqb n name) eqn:E; simpl; rewrite E; [reflexivity | exact IH].
Qed.

Lemma lookup_store_other attrs name value other :
  string_eqb name other = false ->
  lookup (store attrs name value) other = lookup attrs other.
Proof.
  intros H. induction attrs as [|[n v] attrs IH]; simpl.
  - now rewrite H.
  - destruct (string_eqb n name) eqn:E; simpl.
    + apply string_eqb_eq in E as ->. now rewrite H.
    + now rewrite IH.
Qed.

Lemma lookup_erase_same attrs name : lookup (erase attrs name) name = None.
Proof.
  unfold erase. induction attrs as [|[n v] attrs IH]; simpl; [reflexivity |].
  destruct (string_eqb n name) eqn:E; simpl; [exact IH | now rewrite E].
Qed.

Lemma lookup_erase_other attrs name other :
  string_eqb name other = false ->
  lookup (erase attrs name) other = lookup attrs other.
Proof.
  intros H. unfold erase. induction attrs as [|[n v] attrs IH]; simpl; [reflexivity |].
  destruct (string_eqb n name) eqn:E; simpl.
  - apply string_eqb_eq in E as ->. now rewrite H.
  - now rewrite IH.
Qed.

End DomFacts.

(** ** Facts about the element functions *)

Module ElementFacts.
Import JS Newsletter Dom DomSpec DomFacts.

Lemma element_of_set input el e :
  element_of input (set_element_of input el e) = el.
Proof. destruct input; reflexivity. Qed.

Lemma showError_input input message e :
  element_of input (Dom.showError message e) = element_of input e.
Proof.
  unfold Dom.showError. destruct (errorMessage e); destruct input; reflexivity.
Qed.

Lemma made_valid_marked el : marked_valid (made_valid el).
Proof.
  unfold marked_valid, made_valid, has_class, getAttribute.
  cbn [classList attributes setAttribute classList_add classList_remove set_classList].
  repeat split.
  - apply contains_add_same.
  - rewrite contains_add_other by reflexivity.
    rewrite contains_remove. apply andb_false_r.
  - apply lookup_store_same.
Qed.

Lemma made_invalid_marked el : marked_invalid (made_invalid el).
Proof.
  unfold marked_invalid, made_invalid, has_class, getAttribute.
  cbn [classList attributes setAttribute classList_add classList_remove set_classList].
  repeat split.
  - rewrite contains_add_other by reflexivity.
    rewrite contains_remove. apply andb_false_r.
  - apply contains_add_same.
  - apply lookup_store_same.
Qed.

Lemma made_unmarked_unmarked el : unmarked (made_unmarked el).
Proof.
  unfold unmarked, made_unmarked, has_class, getAttribute.
  cbn [classList attributes removeAttribute classList_remove set_classList].
  repeat split.
  - rewrite contains_remove. apply andb_false_r.
  - rewrite contains_remove. apply andb_false_r.
  - apply lookup_erase_same.
Qed.

(** Marking keeps every other class. *)
Lemma made_valid_other el token :
  string_eqb token (lit "is-valid") = false ->
  string_eqb token (lit "is-invalid") = false ->
  has_class (made_valid el) token = has_class el token.
Proof.
  intros V I. unfold made_valid, has_class.
  cbn [classList setAttribute classList_add classList_remove set_classList].
  rewrite contains_add_other by exact V.
  rewrite contains_remove. unfold contains at 2. simpl.
  rewrite I. simpl. apply andb_true_r.
Qed.

Lemma made_invalid_other el token :
  string_eqb token (lit "is-valid") = false ->
  string_eqb token (lit "is-invalid") = false ->
  has_class (made_invalid el) token = has_class el token.
Proof.
  intros V I. unfold made_invalid, has_class.
  cbn [classList setAttribute classList_add classList_remove set_classList].
  rewrite contains_add_other by exact I.
  rewrite contains_remove. unfold contains at 2. simpl.
  rewrite V. simpl. apply andb_true_r.
Qed.

Lemma made_unmarked_other el token :
  string_eqb token (lit "is-valid") = false ->
  string_eqb token (lit "is-invalid") = false ->
  has_class (made_unmarked el) token = has_class el token.
Proof.
  intros V I. unfold made_unmarked, has_class.
  cbn [classList removeAttribute classList_remove set_classList].
  rewrite contains_remove. unfold contains at 2. simpl.
  rewrite V, I. simpl. apply andb_true_r.
Qed.

Lemma setValidState_eq input e el :
  element_of input e = Some el ->
  element_of input (setValidState input e) = Some (made_valid el).
Proof.
  intros H. unfold setValidState. rewrite H. apply element_of_set.
Qed.

Lemma setInvalidState_eq input message e el :
  element_of input e = Some el ->
  element_of input (setInvalidState input message e) = Some (made_invalid el).
Proof.
  intros H. unfold setInvalidState. rewrite H.
  destruct (truthy (VString message)).
  - rewrite showError_input. apply element_of_set.
  - apply element_of_set.
Qed.

Lemma removeValidationState_eq input e el :
  element_of input e = Some el ->
  element_of input (removeValidationState input e) = Some (made_unmarked el).
Proof.
  intros H. unfold removeValidationState. rewrite H. apply element_of_set.
Qed.

End ElementFacts.

(** ** The marks on the inputs *)

Section ValidationMarks.
  Import JS Newsletter Dom DomSpec PageExamples DomFacts ElementFacts.

(** X7: whatever marks an input carried before, [setValidState] leaves it
    with the class [is-valid], without [is-invalid] and with
    [aria-invalid="false"]; [setInvalidState] leaves it with [is-invalid],
    without [is-valid] and with [aria-invalid="true"];
    [removeValidationState] leaves it with neither class and no
    [aria-invalid]; every other class of the input is kept. *)
Theorem validation_marks (input : target) (e : elements) (el : element)
    (message token : jsstring) :
  element_of input e = Some el ->
  string_eqb token (lit "is-valid") = false ->
  string_eqb token (lit "is-invalid") = false ->
  (exists el', element_of input (setValidState input e) = Some el'
               /\ marked_valid el' /\ has_class el' token = has_class el token)
  /\ (exists el', element_of input (setInvalidState input message e) = Some el'
                  /\ marked_invalid el' /\ has_class el' token = has_class el token)
  /\ (exists el', element_of input (removeValidationState input e) = Some el'
                  /\ unmarked el' /\ has_class el' token = has_class el token).
Proof.
  intros H V I. split; [| split].
  - exists (made_valid el). split; [now apply setValidState_eq |].
    split; [apply made_valid_marked | now apply made_valid_other].
  - exists (made_invalid el). split; [now apply setInvalidState_eq |].
    split; [apply made_invalid_marked | now apply made_invalid_other].
  - exists (made_unmarked el). split; [now apply removeValidationState_eq |].
    split; [apply made_unmarked_unmarked | now apply made_unmarked_other].
Qed.

Lemma validation_marks_witness :
  exists el',
    element_of EmailInput
      (setInvalidState EmailInput (lit "no") (setValidState EmailInput (cache sample_page)))
    = Some el'
    /\ marked_invalid el'.
Proof.
  destruct (@validation_marks EmailInput
              (setValidState EmailInput (cache sample_page))
              (made_valid sample_input) (lit "no") (lit "form-control"))
    as (_ & (el' & E & M & _) & _); try (vm_compute; reflexivity).
  exists el'. split; [exact E | exact M].
Defined.

End ValidationMarks.

(** ** Facts about the submit button and the message boxes *)

Module WidgetFacts.
Import JS Newsletter Dom DomSpec DomFacts ElementFacts.

Lemma truthy_text text :
  truthy (VString text) = match text with [] => false | _ :: _ => true end.
Proof. reflexivity. Qed.

(** The button while submitting, and back. *)
Lemma setSubmittingState_true e button :
  submitButton e = Some button ->
  exists busy,
    submitButton (setSubmittingState true e) = Some busy
    /\ disabled busy = true
    /\ has_class busy (lit "is-loading") = true
    /\ getAttribute busy (lit "aria-busy") = Some (lit "true")
    /\ textContent busy = lit "Subscribing..."
    /\ originalText busy =
       match originalText button with
       | Some (c :: text) => Some (c :: text)
       | _ => Some (textContent button)
       end.
Proof.
  intros H. unfold setSubmittingState. rewrite H.
  eexists. split; [reflexivity |].
  cbn [submitButton set_submitButton].
  destruct (originalText button) as [[|c text]|] eqn:O;
    cbn [originalText set_disabled classList_add set_classList setAttribute
         truthy negb set_originalText set_textContent textContent disabled];
    rewrite ?O; cbn [truthy negb];
    unfold has_class, getAttribute;
    cbn [originalText set_disabled classList_add set_classList setAttribute
         set_originalText set_textContent textContent disabled classList attributes];
    repeat split; try apply contains_add_same; try apply lookup_store_same;
    try exact O.
Qed.

Lemma setSubmittingState_false e button :
  submitButton e = Some button ->
  exists idle,
    submitButton (setSubmittingState false e) = Some idle
    /\ disabled idle = false
    /\ has_class idle (lit "is-loading") = false
    /\ getAttribute idle (lit "aria-busy") = Some (lit "false")
    /\ textContent idle =
       match originalText button with
       | Some (c :: text) => c :: text
       | _ => textContent button
       end.
Proof.
  intros H. unfold setSubmittingState. rewrite H.
  eexists. split; [reflexivity |].
  cbn [submitButton set_submitButton].
  destruct (originalText button) as [[|c text]|] eqn:O;
    cbn [originalText set_disabled classList_remove set_classList setAttribute];
    rewrite ?O; cbn [truthy];
    unfold has_class, getAttribute;
    cbn [originalText set_disabled classList_remove set_classList setAttribute
         set_textContent textContent disabled classList attributes];
    repeat split; try (rewrite contains_remove; apply andb_false_r);
    try apply lookup_store_same.
Qed.

(** What the functions of the submission path leave alone. *)
Lemma clearMessages_input e : emailInput (clearMessages e) = emailInput e.
Proof.
  unfold clearMessages. destruct (errorMessage e); cbn [successMessage set_errorMessage];
    destruct (successMessage e); reflexivity.
Qed.

Lemma clearMessages_button e : submitButton (clearMessages e) = submitButton e.
Proof.
  unfold clearMessages. destruct (errorMessage e); cbn [successMessage set_errorMessage];
    destruct (successMessage e); reflexivity.
Qed.

Lemma showError_success message e :
  successMessage (Dom.showError message e) = successMessage e.
Proof. unfold Dom.showError. destruct (errorMessage e); reflexivity. Qed.

Lemma showError_button message e :
  submitButton (Dom.showError message e) = submitButton e.
Proof. unfold Dom.showError. destruct (errorMessage e); reflexivity. Qed.

Lemma showSuccess_error message e :
  errorMessage (Dom.showSuccess message e) = errorMessage e.
Proof. unfold Dom.showSuccess. destruct (successMessage e); reflexivity. Qed.

Lemma showSuccess_input message e :
  emailInput (Dom.showSuccess message e) = emailInput e.
Proof. unfold Dom.showSuccess. destruct (successMessage e); reflexivity. Qed.

Lemma showSuccess_button message e :
  submitButton (Dom.showSuccess message e) = submitButton e.
Proof. unfold Dom.showSuccess. destruct (successMessage e); reflexivity. Qed.

Lemma focusFirstError_input e : emailInput (Dom.focusFirstError e) = emailInput e.
Proof.
  unfold Dom.focusFirstError. destruct (errorMessage e) as [box|]; [| reflexivity].
  destruct (negb _); reflexivity.
Qed.

Lemma focusFirstError_success e : successMessage (Dom.focusFirstError e) = successMessage e.
Proof.
  unfold Dom.focusFirstError. destruct (errorMessage e) as [box|]; [| reflexivity].
  destruct (negb _); reflexivity.
Qed.

Lemma focusFirstError_button e : submitButton (Dom.focusFirstError e) = submitButton e.
Proof.
  unfold Dom.focusFirstError. destruct (errorMessage e) as [box|]; [| reflexivity].
  destruct (negb _); reflexivity.
Qed.

Lemma setSubmittingState_input b e : emailInput (Dom.setSubmittingState b e) = emailInput e.
Proof.
  unfold Dom.setSubmittingState. destruct (submitButton e); [| reflexivity].
  destruct b; reflexivity.
Qed.

Lemma setSubmittingState_error b e : errorMessage (Dom.setSubmittingState b e) = errorMessage e.
Proof.
  unfold Dom.setSubmittingState. destruct (submitButton e); [| reflexivity].
  destruct b; reflexivity.
Qed.

Lemma setSubmittingState_success b e :
  successMessage (Dom.setSubmittingState b e) = successMessage e.
Proof.
  unfold Dom.setSubmittingState. destruct (submitButton e); [| reflexivity].
  destruct b; reflexivity.
Qed.

Lemma removeValidationState_error input e :
  errorMessage (removeValidationState input e) = errorMessage e.
Proof.
  unfold removeValidationState. destruct (element_of input e); [| reflexivity].
  destruct input; reflexivity.
Qed.

Lemma removeValidationState_success input e :
  successMessage (removeValidationState input e) = successMessage e.
Proof.
  unfold removeValidationState. destruct (element_of input e); [| reflexivity].
  destruct input; reflexivity.
Qed.

Lemma removeValidationState_button input e :
  submitButton (removeValidationState input e) = submitButton e.
Proof.
  unfold removeValidationState. destruct (element_of input e); [| reflexivity].
  destruct input; reflexivity.
Qed.

(** The boxes after [showError], [showSuccess] and [clearMessages]. *)
Lemma shown_box message box :
  shows (setAttribute (lit "aria-hidden") (lit "false")
           (classList_remove [lit "is-hidden"] (set_textContent message box))) message.
Proof.
  unfold shows, has_class, getAttribute.
  cbn [textContent classList attributes setAttribute classList_remove set_classList
       set_textContent].
  repeat split.
  - rewrite contains_remove. apply andb_false_r.
  - apply lookup_store_same.
Qed.

Lemma hidden_box box : hidden_empty (hide box).
Proof.
  unfold hidden_empty, hide, has_class, getAttribute.
  cbn [textContent classList attributes setAttribute classList_add set_classList
       set_textContent].
  repeat split.
  - apply contains_add_same.
  - apply lookup_store_same.
Qed.

Lemma showError_box message e box :
  errorMessage e = Some box ->
  exists box', errorMessage (Dom.showError message e) = Some box' /\ shows box' message.
Proof.
  intros H. unfold Dom.showError. rewrite H.
  eexists. split; [reflexivity | apply shown_box].
Qed.

Lemma showSuccess_box message e box :
  successMessage e = Some box ->
  exists box', successMessage (Dom.showSuccess message e) = Some box' /\ shows box' message.
Proof.
  intros H. unfold Dom.showSuccess. rewrite H.
  eexists. split; [reflexivity | apply shown_box].
Qed.

Lemma clearMessages_error e box :
  errorMessage e = Some box ->
  errorMessage (clearMessages e) = Some (hide box).
Proof.
  intros H. unfold clearMessages. rewrite H.
  cbn [successMessage set_errorMessage].
  destruct (successMessage e); reflexivity.
Qed.

Lemma clearMessages_success e box :
  successMessage e = Some box ->
  successMessage (clearMessages e) = Some (hide box).
Proof.
  intros H. unfold clearMessages.
  destruct (errorMessage e); cbn [successMessage set_errorMessage]; rewrite H; reflexivity.
Qed.

Lemma clearMessages_none_error e :
  errorMessage e = None -> errorMessage (clearMessages e) = None.
Proof.
  intros H. unfold clearMessages. rewrite H.
  destruct (successMessage e); cbn [errorMessage set_successMessage]; exact H.
Qed.

Lemma focused_box box :
  let box' := removeAttribute (lit "tabindex")
                (setAttribute (lit "tabindex") (lit "-1") box) in
  textContent box' = textContent box
  /\ classList box' = classList box
  /\ getAttribute box' (lit "aria-hidden") = getAttribute box (lit "aria-hidden")
  /\ getAttribute box' (lit "tabindex") = None.
Proof.
  unfold getAttribute.
  cbn [textContent classList attributes setAttribute removeAttribute].
  repeat split.
  - rewrite lookup_erase_other by reflexivity.
    now rewrite lookup_store_other by reflexivity.
  - apply lookup_erase_same.
Qed.

Lemma box_agrees_focused box :
  box_agrees box ->
  box_agrees (removeAttribute (lit "tabindex")
                (setAttribute (lit "tabindex") (lit "-1") box)).
Proof.
  destruct (focused_box box) as (T & C & A & _).
  unfold box_agrees, shows, hidden_empty, has_class. rewrite T, C, A. auto.
Qed.

End WidgetFacts.

(** ** Facts about the page *)

Module PageFacts.
Import JS Newsletter Spec Dom DomSpec Calls DomFacts ElementFacts WidgetFacts StateFacts.

Lemma submitForm_resume_ui o now w :
  ui (snd (submitForm_resume o now w)) =
  SetSubmittingState false :: settled_calls o ++ ui w.
Proof.
  destruct o as [r |]; [destruct r as [[|] m i e] |]; reflexivity.
Qed.



(** *** The marks of the email input *)

Lemma marks_agree_same e e' :
  emailInput e' = emailInput e -> marks_agree e -> marks_agree e'.
Proof. unfold marks_agree. intros ->. auto. Qed.

Lemma setValidState_marks input e : marks_agree e -> marks_agree (setValidState input e).
Proof.
  intros A. unfold setValidState.
  destruct (element_of input e) as [el|] eqn:E; [| exact A].
  destruct input; [| exact A].
  intros i [= <-]. left. apply made_valid_marked.
Qed.

Lemma removeValidationState_marks input e :
  marks_agree e -> marks_agree (removeValidationState input e).
Proof.
  intros A. unfold removeValidationState.
  destruct (element_of input e) as [el|] eqn:E; [| exact A].
  destruct input; [| exact A].
  intros i [= <-]. right; right. apply made_unmarked_unmarked.
Qed.

Lemma showError_marks message e : marks_agree e -> marks_agree (Dom.showError message e).
Proof. apply marks_agree_same. apply (showError_input EmailInput). Qed.

Lemma setInvalidState_marks input message e :
  marks_agree e -> marks_agree (setInvalidState input message e).
Proof.
  intros A. unfold setInvalidState.
  destruct (element_of input e) as [el|] eqn:E; [| exact A].
  assert (B : marks_agree
                (set_element_of input
                   (Some (setAttribute (lit "aria-invalid") (lit "true")
                            (classList_add (lit "is-invalid")
                               (classList_remove [lit "is-valid"] el)))) e)).
  { destruct input; [| exact A].
    intros i [= <-]. right; left. apply made_invalid_marked. }
  destruct (truthy (VString message)); [now apply showError_marks | exact B].
Qed.

Lemma clearMessages_marks e : marks_agree e -> marks_agree (clearMessages e).
Proof. apply marks_agree_same, clearMessages_input. Qed.

Lemma perform_marks c e : marks_agree e -> marks_agree (perform c e).
Proof.
  destruct c; cbn [perform]; try (intros A; exact A).
  - apply clearMessages_marks.
  - apply showError_marks.
  - apply marks_agree_same, showSuccess_input.
  - apply marks_agree_same, focusFirstError_input.
  - apply marks_agree_same, setSubmittingState_input.
  - apply removeValidationState_marks.
Qed.

Lemma render_marks calls e : marks_agree e -> marks_agree (render calls e).
Proof.
  intros A. induction calls as [|c calls IH]; [exact A |].
  apply perform_marks, IH.
Qed.

Lemma handleEmailBlur_cases value e :
  handleEmailBlur value e = Normal (removeValidationState EmailInput e)
  \/ handleEmailBlur value e = Normal (setValidState EmailInput e)
  \/ handleEmailBlur value e =
     Normal (setInvalidState EmailInput (ERROR_MESSAGES INVALID_EMAIL) e).
Proof.
  unfold handleEmailBlur.
  destruct (EmailFacts.isValidEmail_returns (trim value)) as (valid & ->).
  destruct (truthy (VString (trim value))); cbn [negb cbind]; [| now left].
  destruct valid; [right; now left | right; now right].
Qed.

Lemma handleEmailInput_marks e : marks_agree e -> marks_agree (handleEmailInput e).
Proof.
  intros A. unfold handleEmailInput.
  destruct (emailInput e) as [input|]; [| exact A].
  destruct (contains _ _); [| exact A].
  now apply clearMessages_marks, removeValidationState_marks.
Qed.

Lemma clearForm_marks e : marks_agree e -> marks_agree (clearForm e).
Proof.
  intros A. unfold clearForm. destruct (formFound e); [| exact A].
  destruct (emailInput (clearMessages e));
    [apply removeValidationState_marks |]; now apply clearMessages_marks.
Qed.

Lemma page_step_marks p ev p' :
  marks_agree (cache p) -> page_step p ev = Some p' -> marks_agree (cache p').
Proof.
  intros A S. destruct ev as [f tv tc | o now | value | | checked |]; simpl in S.
  - destruct (attached FormOnSubmit p); [| discriminate]. injection S as <-.
    now apply render_marks.
  - destruct (inFlight p); [discriminate |]. injection S as <-.
    now apply render_marks.
  - destruct (attached EmailOnBlur p); [| discriminate].
    destruct (handleEmailBlur_cases value (cache p)) as [E | [E | E]];
      rewrite E in S; injection S as <-; cbn [cache with_cache].
    + now apply removeValidationState_marks.
    + now apply setValidState_marks.
    + now apply setInvalidState_marks.
  - destruct (attached EmailOnInput p); [| discriminate]. injection S as <-.
    now apply handleEmailInput_marks.
  - destruct (attached PrivacyOnChange p); [| discriminate]. injection S as <-.
    cbn [cache with_cache]. unfold handlePrivacyChange.
    destruct checked; [now apply removeValidationState_marks | exact A].
  - injection S as <-. now apply clearForm_marks.
Qed.

(** *** The message boxes *)

Lemma boxes_agree_same e e' :
  errorMessage e' = errorMessage e -> successMessage e' = successMessage e ->
  boxes_agree e -> boxes_agree e'.
Proof. unfold boxes_agree. intros -> ->. auto. Qed.

Lemma showError_boxes message e : boxes_agree e -> boxes_agree (Dom.showError message e).
Proof.
  intros [E S]. split.
  - destruct (errorMessage e) as [box|] eqn:B.
    + destruct (showError_box message e B) as (box' & -> & Sh).
      intros b [= <-]. left. destruct Sh as (T & Sh). rewrite T. now split.
    + unfold Dom.showError. rewrite B. rewrite B. discriminate.
  - rewrite showError_success. exact S.
Qed.

Lemma showSuccess_boxes message e : boxes_agree e -> boxes_agree (Dom.showSuccess message e).
Proof.
  intros [E S]. split.
  - rewrite showSuccess_error. exact E.
  - destruct (successMessage e) as [box|] eqn:B.
    + destruct (showSuccess_box message e B) as (box' & -> & Sh).
      intros b [= <-]. left. destruct Sh as (T & Sh). rewrite T. now split.
    + unfold Dom.showSuccess. rewrite B. rewrite B. discriminate.
Qed.

Lemma clearMessages_boxes e : boxes_agree (clearMessages e).
Proof.
  split.
  - destruct (errorMessage e) as [box|] eqn:B.
    + rewrite (clearMessages_error e B). intros b [= <-]. right. apply hidden_box.
    + rewrite (clearMessages_none_error e B). discriminate.
  - destruct (successMessage e) as [box|] eqn:B.
    + rewrite (clearMessages_success e B). intros b [= <-]. right. apply hidden_box.
    + unfold clearMessages.
      destruct (errorMessage e); cbn [successMessage set_errorMessage]; rewrite B;
        cbn [successMessage set_errorMessage]; rewrite B; discriminate.
Qed.

Lemma focusFirstError_boxes e : boxes_agree e -> boxes_agree (Dom.focusFirstError e).
Proof.
  intros [E S]. split.
  - unfold Dom.focusFirstError. destruct (errorMessage e) as [box|] eqn:B.
    + destruct (negb _); cbn [errorMessage set_errorMessage].
      * intros b [= <-]. apply box_agrees_focused. now apply E.
      * rewrite B. intros b [= <-]. now apply E.
    + rewrite B. discriminate.
  - rewrite focusFirstError_success. exact S.
Qed.

Lemma setValidState_boxes input e :
  errorMessage (setValidState input e) = errorMessage e
  /\ successMessage (setValidState input e) = successMessage e.
Proof.
  unfold setValidState. destruct (element_of input e); [| now split].
  destruct input; now split.
Qed.

Lemma setInvalidState_boxes input message e :
  boxes_agree e -> boxes_agree (setInvalidState input message e).
Proof.
  intros A. unfold setInvalidState.
  destruct (element_of input e) as [el|]; [| exact A].
  assert (B : boxes_agree
                (set_element_of input
                   (Some (setAttribute (lit "aria-invalid") (lit "true")
                            (classList_add (lit "is-invalid")
                               (classList_remove [lit "is-valid"] el)))) e))
    by (destruct input; exact A).
  destruct (truthy (VString message)); [now apply showError_boxes | exact B].
Qed.

Lemma removeValidationState_boxes input e :
  boxes_agree e -> boxes_agree (removeValidationState input e).
Proof.
  apply boxes_agree_same;
    [apply removeValidationState_error | apply removeValidationState_success].
Qed.

Lemma perform_boxes c e : boxes_agree e -> boxes_agree (perform c e).
Proof.
  destruct c; cbn [perform]; try (intros A; exact A).
  - intros _. apply clearMessages_boxes.
  - apply showError_boxes.
  - apply showSuccess_boxes.
  - apply focusFirstError_boxes.
  - apply boxes_agree_same;
      [apply setSubmittingState_error | apply setSubmittingState_success].
  - apply removeValidationState_boxes.
Qed.

Lemma render_boxes calls e : boxes_agree e -> boxes_agree (render calls e).
Proof.
  intros A. induction calls as [|c calls IH]; [exact A |].
  apply perform_boxes, IH.
Qed.

Lemma page_step_boxes p ev p' :
  boxes_agree (cache p) -> page_step p ev = Some p' -> boxes_agree (cache p').
Proof.
  intros A S. destruct ev as [f tv tc | o now | value | | checked |]; simpl in S.
  - destruct (attached FormOnSubmit p); [| discriminate]. injection S as <-.
    now apply render_boxes.
  - destruct (inFlight p); [discriminate |]. injection S as <-.
    now apply render_boxes.
  - destruct (attached EmailOnBlur p); [| discriminate].
    destruct (handleEmailBlur_cases value (cache p)) as [E | [E | E]];
      rewrite E in S; injection S as <-; cbn [cache with_cache].
    + now apply removeValidationState_boxes.
    + destruct (setValidState_boxes EmailInput (cache p)) as [E1 E2].
      now apply (boxes_agree_same _ E1 E2).
    + now apply setInvalidState_boxes.
  - destruct (attached EmailOnInput p); [| discriminate]. injection S as <-.
    cbn [cache with_cache]. unfold handleEmailInput.
    destruct (emailInput (cache p)); [| exact A].
    destruct (contains _ _); [apply clearMessages_boxes | exact A].
  - destruct (attached PrivacyOnChange p); [| discriminate]. injection S as <-.
    cbn [cache with_cache]. unfold handlePrivacyChange.
    destruct checked; [now apply removeValidationState_boxes | exact A].
  - injection S as <-. cbn [cache with_cache]. unfold clearForm.
    destruct (formFound (cache p)); [| exact A].
    destruct (emailInput (clearMessages (cache p)));
      [apply removeValidationState_boxes |]; apply clearMessages_boxes.
Qed.

Lemma page_run_preserves (P : page -> Prop) :
  (forall p ev p', P p -> page_step p ev = Some p' -> P p') ->
  forall events p p', P p -> page_run p events = Some p' -> P p'.
Proof.
  intros Step. induction events as [|ev events IH]; intros p p' A R; simpl in R.
  - now injection R as <-.
  - destruct (page_step p ev) as [p1|] eqn:S; [| discriminate].
    apply (IH p1 p'); [eapply Step; eassumption | exact R].
Qed.

(** *** The submit button *)

Lemma setValidState_button input e :
  submitButton (setValidState input e) = submitButton e.
Proof.
  unfold setValidState. destruct (element_of input e); [| reflexivity].
  destruct input; reflexivity.
Qed.

Lemma setInvalidState_button input message e :
  submitButton (setInvalidState input message e) = submitButton e.
Proof.
  unfold setInvalidState. destruct (element_of input e); [| reflexivity].
  destruct (truthy (VString message)); [rewrite showError_button |];
    destruct input; reflexivity.
Qed.

Lemma handleEmailInput_button e : submitButton (handleEmailInput e) = submitButton e.
Proof.
  unfold handleEmailInput. destruct (emailInput e); [| reflexivity].
  destruct (contains _ _); [| reflexivity].
  now rewrite clearMessages_button, removeValidationState_button.
Qed.

Lemma clearForm_button e : submitButton (clearForm e) = submitButton e.
Proof.
  unfold clearForm. destruct (formFound e); [| reflexivity].
  destruct (emailInput (clearMessages e));
    rewrite ?removeValidationState_button; apply clearMessages_button.
Qed.

Lemma settled_calls_button o e :
  submitButton (render (settled_calls o) e) = submitButton e.
Proof.
  destruct o as [r |]; [destruct (success r) eqn:S |];
    unfold settled_calls; rewrite ?S; cbn [render fold_right perform];
    rewrite ?focusFirstError_button, ?removeValidationState_button,
      ?showSuccess_button, ?showError_button; reflexivity.
Qed.

Lemma checkRateLimit_guard now s :
  isSubmitting (snd (checkRateLimit now s)) = isSubmitting s.
Proof. rewrite checkRateLimit_eq. reflexivity. Qed.

Lemma button_same p p' :
  moduleState p' = moduleState p ->
  submitButton (cache p') = submitButton (cache p) ->
  button_reflects_guard p -> button_reflects_guard p'.
Proof. unfold button_reflects_guard. intros -> ->. auto. Qed.

Lemma button_after b e :
  forall button, submitButton (Dom.setSubmittingState b e) = Some button ->
    disabled button = b /\ has_class button (lit "is-loading") = b.
Proof.
  intros button H. destruct (submitButton e) as [old|] eqn:B.
  - destruct b.
    + destruct (setSubmittingState_true e B) as (busy & E & D & L & _).
      rewrite E in H. injection H as <-. now split.
    + destruct (setSubmittingState_false e B) as (idle & E & D & L & _).
      rewrite E in H. injection H as <-. now split.
  - unfold Dom.setSubmittingState in H. rewrite B in H. congruence.
Qed.

Lemma page_step_button p ev p' :
  button_reflects_guard p -> page_step p ev = Some p' -> button_reflects_guard p'.
Proof.
  intros A S. destruct ev as [f tv tc | o now | value | | checked |]; simpl in S.
  - destruct (attached FormOnSubmit p); [| discriminate]. injection S as <-.
    unfold after_action. rewrite handleFormSubmit_eq. cbn [st pending ui].
    destruct (isSubmitting (moduleState p)) eqn:G.
    { apply (@button_same p); [reflexivity | reflexivity | exact A]. }
    destruct (validateForm f tv) as [[err | data] | e'].
    + apply (@button_same p); [reflexivity | | exact A].
      cbn [snd ui cache render fold_right perform].
      now rewrite focusFirstError_button, showError_button, clearMessages_button.
    + destruct (fst (checkRateLimit tc (moduleState p))).
      * intros b Hb. cbn [snd st ui cache moduleState render fold_right perform] in *.
        cbn [isSubmitting set_isSubmitting].
        apply (button_after true (clearMessages (cache p))). exact Hb.
      * intros b Hb. cbn [snd st ui cache moduleState render fold_right perform] in *.
        rewrite checkRateLimit_guard. apply A.
        now rewrite showError_button, clearMessages_button in Hb.
    + apply (@button_same p); [reflexivity | | exact A].
      cbn [snd ui cache render fold_right perform].
      now rewrite showError_button, clearMessages_button.
  - destruct (inFlight p) as [|d others]; [discriminate |]. injection S as <-.
    unfold after_action.
    destruct (submitForm_resume_eq o now
                {| st := moduleState p; pending := others; ui := [] |}) as (_ & Es & _).
    rewrite submitForm_resume_ui, Es. cbn [st ui app].
    rewrite app_nil_r.
    intros b Hb. cbn [cache moduleState render fold_right perform] in *.
    replace (isSubmitting (settled_state o now (moduleState p))) with false
      by (destruct o; reflexivity).
    eapply (button_after false). exact Hb.
  - destruct (attached EmailOnBlur p); [| discriminate].
    destruct (handleEmailBlur_cases value (cache p)) as [E | [E | E]];
      rewrite E in S; injection S as <-;
      (apply (@button_same p); [reflexivity | | exact A]); cbn [cache with_cache].
    + apply removeValidationState_button.
    + apply setValidState_button.
    + apply setInvalidState_button.
  - destruct (attached EmailOnInput p); [| discriminate]. injection S as <-.
    apply (@button_same p); [reflexivity | | exact A]. apply handleEmailInput_button.
  - destruct (attached PrivacyOnChange p); [| discriminate]. injection S as <-.
    apply (@button_same p); [reflexivity | | exact A].
    cbn [cache with_cache]. unfold handlePrivacyChange.
    destruct checked; [apply removeValidationState_button | reflexivity].
  - injection S as <-.
    apply (@button_same p); [reflexivity | | exact A]. apply clearForm_button.
Qed.

(** *** A submission from start to end *)






(** *** Setting up *)

Lemma attached_app l p more :
  attached l {| moduleState := moduleState p; cache := cache p;
                listeners := listeners p ++ more; inFlight := inFlight p |} =
  attached l p
  || attached l {| moduleState := moduleState p; cache := cache p;
                   listeners := more; inFlight := inFlight p |}.
Proof. unfold attached. cbn [listeners]. apply existsb_app. Qed.

End PageFacts.

(** ** What the page shows, and when *)

Section PageProperties.
  Import JS Newsletter Spec Examples Dom DomSpec Calls PageExamples.
  Import DomFacts ElementFacts WidgetFacts StateFacts PageFacts.

(** X8: [setSubmittingState(true)] disables the button, marks it loading
    and busy and labels it "Subscribing..."; [setSubmittingState(false)]
    after it enables the button again and puts the text back: the stored
    [dataset.originalText] if there is one, else the text the button had.
    A button that had no text stays labelled "Subscribing...". *)
Theorem submit_button_round_trip (e : elements) (button : element) :
  submitButton e = Some button ->
  (exists busy,
      submitButton (Dom.setSubmittingState true e) = Some busy
      /\ disabled busy = true
      /\ has_class busy (lit "is-loading") = true
      /\ getAttribute busy (lit "aria-busy") = Some (lit "true")
      /\ textContent busy = lit "Subscribing...")
  /\ (exists idle,
        submitButton (Dom.setSubmittingState false (Dom.setSubmittingState true e)) = Some idle
        /\ disabled idle = false
        /\ has_class idle (lit "is-loading") = false
        /\ getAttribute idle (lit "aria-busy") = Some (lit "false")
        /\ textContent idle = text_after_round button
        /\ (originalText button = None -> textContent button <> [] ->
            textContent idle = textContent button)
        /\ (originalText button = None -> textContent button = [] ->
            textContent idle = lit "Subscribing...")).
Proof.
  intros H.
  destruct (setSubmittingState_true e H) as (busy & Eb & D & L & A & T & O).
  split; [exists busy; repeat split; assumption |].
  destruct (setSubmittingState_false (Dom.setSubmittingState true e) Eb)
    as (idle & Ei & D' & L' & A' & T').
  assert (R : textContent idle = text_after_round button).
  { rewrite T', O, T. unfold text_after_round.
    destruct (originalText button) as [[|c text]|];
      destruct (textContent button); reflexivity. }
  exists idle. repeat split; try assumption.
  - intros N Ht. rewrite R. unfold text_after_round. rewrite N.
    destruct (textContent button); [congruence | reflexivity].
  - intros N Ht. rewrite R. unfold text_after_round. now rewrite N, Ht.
Qed.

Lemma submit_button_round_trip_witness :
  exists idle,
    submitButton (Dom.setSubmittingState false
                    (Dom.setSubmittingState true (cache sample_page))) = Some idle
    /\ disabled idle = false
    /\ textContent idle = lit "Subscribe".
Proof.
  destruct (@submit_button_round_trip (cache sample_page) (plain (lit "Subscribe")))
    as (_ & idle & E & D & _ & _ & T & _); [reflexivity |].
  exists idle. split; [exact E | split; [exact D | exact T]].
Defined.

(** X9: the mark that [handleEmailBlur] leaves on the email input tells
    what a submission of the same value would say about the email: the
    input is unmarked exactly when [validateForm] would report
    [EMPTY_EMAIL], marked invalid exactly when it would report
    [INVALID_EMAIL], and marked valid exactly when [validateEmail] accepts
    the trimmed value. *)
Theorem blur_agrees_with_submit
    (e : elements) (input : element) (value : jsstring) (box : option bool) (now : Z) :
  emailInput e = Some input ->
  exists e' input',
    handleEmailBlur value e = Normal e'
    /\ emailInput e' = Some input'
    /\ (unmarked input' <->
        validateForm (mkForm value box) now = Normal (Invalid EMPTY_EMAIL))
    /\ (marked_invalid input' <->
        validateForm (mkForm value box) now = Normal (Invalid INVALID_EMAIL))
    /\ (marked_valid input' <-> validateEmail (VString (trim value)) = Normal true).
Proof.
  intros H. unfold handleEmailBlur, validateForm, validateEmail.
  cbn [emailValue privacyCheckbox].
  destruct (EmailFacts.isValidEmail_returns (trim value)) as (valid & E). rewrite E.
  assert (Blank : trim value = [] -> valid = false).
  { intros T. rewrite T in E. vm_compute in E. congruence. }
  destruct (trim value) as [|c rest]; cbn [truthy negb cbind];
    [rewrite (Blank eq_refl) | destruct valid; cbn [negb]];
    [ exists (removeValidationState EmailInput e), (made_unmarked input);
      pose proof (made_unmarked_unmarked input) as U;
      pose proof (removeValidationState_eq EmailInput e H) as I
    | exists (setValidState EmailInput e), (made_valid input);
      pose proof (made_valid_marked input) as U;
      pose proof (setValidState_eq EmailInput e H) as I
    | exists (setInvalidState EmailInput (ERROR_MESSAGES INVALID_EMAIL) e),
        (made_invalid input);
      pose proof (made_invalid_marked input) as U;
      pose proof (setInvalidState_eq EmailInput (ERROR_MESSAGES INVALID_EMAIL) e H) as I ];
    (split; [reflexivity | split; [exact I |]]);
    repeat split;
    try (intros _; exact U); try reflexivity; try discriminate;
    try (destruct box as [[|]|]; discriminate);
    try (intros (V1 & V2 & V3); destruct U as (U1 & U2 & U3); congruence);
    try (destruct U as (U1 & U2 & U3); assumption).
Qed.

Lemma blur_agrees_with_submit_witness :
  exists e' input',
    handleEmailBlur (lit "not an email") (cache sample_page) = Normal e'
    /\ emailInput e' = Some input'
    /\ marked_invalid input'.
Proof.
  destruct (@blur_agrees_with_submit (cache sample_page) sample_input
              (lit "not an email") None 0 eq_refl)
    as (e' & input' & B & I & _ & Invalid_iff & _).
  exists e', input'. split; [exact B | split; [exact I |]].
  apply Invalid_iff. vm_compute. reflexivity.
Defined.

(** X10: the marks of the email input and its [aria-invalid] stay in
    agreement: if the input is marked valid, marked invalid or unmarked
    (never both classes, [aria-invalid] matching), it is so after any
    sequence of submissions, settlements, blurs, keystrokes, checkbox
    changes and calls of [clearForm]. *)
Theorem marks_stay_agreed (p p' : page) (events : list page_event) :
  marks_agree (cache p) -> page_run p events = Some p' -> marks_agree (cache p').
Proof.
  intros A R.
  apply (@page_run_preserves (fun q => marks_agree (cache q))) with (events := events) (p := p);
    [| exact A | exact R].
  intros q ev q' Aq S. eapply page_step_marks; eassumption.
Qed.

Lemma marks_stay_agreed_witness :
  exists p',
    page_run sample_page
      [Blurred (lit "oops"); Submitted valid_form 0 0; Typed; Settled ok 1000] = Some p'
    /\ marks_agree (cache p').
Proof.
  eexists. split; [vm_compute; reflexivity |].
  apply (@marks_stay_agreed sample_page _
           [Blurred (lit "oops"); Submitted valid_form 0 0; Typed; Settled ok 1000]).
  - intros input [= <-]. right; right. repeat split.
  - vm_compute. reflexivity.
Defined.

(** X11: a message box whose [is-hidden] class and [aria-hidden] agree,
    and which is empty when hidden, stays so after any sequence of events:
    what a screen reader is told is what is shown. *)
Theorem boxes_stay_agreed (p p' : page) (events : list page_event) :
  boxes_agree (cache p) -> page_run p events = Some p' -> boxes_agree (cache p').
Proof.
  intros A R.
  apply (@page_run_preserves (fun q => boxes_agree (cache q))) with (events := events) (p := p);
    [| exact A | exact R].
  intros q ev q' Aq S. eapply page_step_boxes; eassumption.
Qed.

Lemma boxes_stay_agreed_witness :
  exists p',
    page_run sample_page
      [Blurred (lit "oops"); Submitted valid_form 0 0; Typed; Settled failure 1000] = Some p'
    /\ boxes_agree (cache p').
Proof.
  eexists. split; [vm_compute; reflexivity |].
  apply (@boxes_stay_agreed sample_page _
           [Blurred (lit "oops"); Submitted valid_form 0 0; Typed; Settled failure 1000]).
  - split; intros box [= <-]; right; repeat split.
  - vm_compute. reflexivity.
Defined.

(** X12: the submit button is disabled and carries [is-loading] exactly
    while [isSubmitting] is set: if that holds of a page, it holds after
    any sequence of events. *)
Theorem button_follows_guard (p p' : page) (events : list page_event) :
  button_reflects_guard p -> page_run p events = Some p' -> button_reflects_guard p'.
Proof.
  intros A R.
  apply (@page_run_preserves button_reflects_guard) with (events := events) (p := p);
    [| exact A | exact R].
  intros q ev q' Aq S. eapply page_step_button; eassumption.
Qed.

Lemma button_follows_guard_witness :
  exists p',
    page_run sample_page [Submitted valid_form 0 0; Blurred (lit "oops"); Typed] = Some p'
    /\ button_reflects_guard p'.
Proof.
  eexists. split; [vm_compute; reflexivity |].
  apply (@button_follows_guard sample_page _
           [Submitted valid_form 0 0; Blurred (lit "oops"); Typed]).
  - intros button [= <-]. split; reflexivity.
  - vm_compute. reflexivity.
Defined.





(** X15: [init] is idempotent: on the same document a second call changes
    nothing, whether the first one found the form or not. *)
Theorem init_idempotent (d : document) (p : page) :
  init d (init d p) = init d p.
Proof.
  destruct (isInitialized (moduleState p)) eqn:I.
  - assert (E : init d p = p) by (unfold init; now rewrite I).
    now rewrite !E.
  - destruct d as [content|].
    + assert (Q : isInitialized (moduleState (init (Some content) p)) = true)
        by (unfold init; rewrite I; reflexivity).
      unfold init at 1. now rewrite Q.
    + assert (E : init None p =
                  {| moduleState := moduleState p;
                     cache := cacheElements None (cache p);
                     listeners := listeners p;
                     inFlight := inFlight p |})
        by (unfold init; rewrite I; reflexivity).
      rewrite E. unfold init. cbn [moduleState cache listeners inFlight].
      rewrite I. reflexivity.
Qed.

(** X16: [init] sets [isInitialized] exactly when it finds the form.  If
    the form has no email input, [isInitialized] is set all the same while
    no listener is attached; if it has one, the submit, blur and input
    listeners are attached, and the change listener when there is a
    privacy checkbox. *)
Theorem init_outcome (d : document) (p : page) :
  isInitialized (moduleState p) = false ->
  (isInitialized (moduleState (init d p)) = true <-> d <> None)
  /\ (forall content,
        d = Some content -> found_emailInput content = None ->
        listeners (init d p) = listeners p)
  /\ (forall content input,
        d = Some content -> found_emailInput content = Some input ->
        attached FormOnSubmit (init d p) = true
        /\ attached EmailOnBlur (init d p) = true
        /\ attached EmailOnInput (init d p) = true
        /\ (found_privacyBox content <> None ->
            attached PrivacyOnChange (init d p) = true)).
Proof.
  intros I. unfold init. rewrite I. split; [| split].
  - destruct d as [content|]; cbn [cacheElements formFound negb moduleState
                                   set_isInitialized isInitialized].
    + split; [discriminate | reflexivity].
    + rewrite I. split; [discriminate | congruence].
  - intros content -> E. cbn [cacheElements formFound negb listeners].
    unfold setupEventListeners. cbn [formFound emailInput]. now rewrite E.
  - intros content input -> E. cbn [cacheElements formFound negb].
    unfold attached, setupEventListeners. cbn [listeners formFound emailInput privacyBox].
    rewrite E.
    destruct (found_privacyBox content) as [box|];
      rewrite ?existsb_app; cbn [existsb]; rewrite ?orb_true_r;
      repeat split; try reflexivity; congruence.
Qed.

Lemma init_outcome_witness :
  isInitialized (moduleState (init document_without_input fresh_page)) = true
  /\ listeners (init document_without_input fresh_page) = [].
Proof.
  destruct (@init_outcome document_without_input fresh_page eq_refl) as (I & L & _).
  split.
  - apply I. discriminate.
  - apply (L _ eq_refl eq_refl).
Defined.

(** X17: when the form has an email input and an error box, [init] leaves
    the error box with a non-empty [id] (its own if it had one,
    ["newsletter-error"] otherwise), [role="alert"] and
    [aria-live="polite"], and the input with an [aria-describedby] that
    names that [id]. *)
Theorem init_describes_input
    (p : page) (content : form_content) (input box : element) :
  isInitialized (moduleState p) = false ->
  found_emailInput content = Some input ->
  found_errorMessage content = Some box ->
  exists input' box',
    emailInput (cache (init (Some content) p)) = Some input'
    /\ errorMessage (cache (init (Some content) p)) = Some box'
    /\ elementId box' <> []
    /\ (elementId box <> [] -> elementId box' = elementId box)
    /\ (elementId box = [] -> elementId box' = lit "newsletter-error")
    /\ getAttribute input' (lit "aria-describedby") = Some (elementId box')
    /\ getAttribute box' (lit "role") = Some (lit "alert")
    /\ getAttribute box' (lit "aria-live") = Some (lit "polite").
Proof.
  intros I Hi Hb. unfold init. rewrite I.
  cbn [cacheElements formFound negb cache].
  unfold setupAccessibility. cbn [emailInput errorMessage successMessage]. rewrite Hi, Hb.
  cbn [successMessage set_errorMessage set_emailInput].
  eexists. eexists.
  split.
  { destruct (found_successMessage content); reflexivity. }
  split.
  { destruct (found_successMessage content); reflexivity. }
  unfold getAttribute.
  cbn [elementId attributes setAttribute set_elementId].
  destruct (elementId box) as [|c rest] eqn:Eid; cbn [truthy];
    repeat split; try congruence; try discriminate;
    try apply lookup_store_same;
    try (rewrite lookup_store_other by reflexivity; apply lookup_store_same).
Qed.

Lemma init_describes_input_witness :
  exists input' box',
    emailInput (cache sample_page) = Some input'
    /\ errorMessage (cache sample_page) = Some box'
    /\ getAttribute input' (lit "aria-describedby") = Some (lit "newsletter-error").
Proof.
  destruct (@init_describes_input fresh_page
              {| found_emailInput := Some (plain []);
                 found_submitButton := Some (plain (lit "Subscribe"));
                 found_errorMessage := Some (hide (plain []));
                 found_successMessage := Some (hide (plain []));
                 found_privacyBox := Some (plain []) |}
              (plain []) (hide (plain [])) eq_refl eq_refl eq_refl)
    as (input' & box' & Ei & Eb & _ & _ & Id & D & _).
  exists input', box'. split; [exact Ei | split; [exact Eb |]].
  rewrite D, Id; reflexivity.
Defined.



(** X23: [clearForm] hides and empties both message boxes and unmarks the
    email input, and leaves alone the module state (the count, the time of
    the last submission, the guard), the pending transport calls and the
    submit button; when no form was found it changes nothing. *)
Theorem clearForm_effect (p p' : page) :
  page_step p FormCleared = Some p' ->
  moduleState p' = moduleState p
  /\ inFlight p' = inFlight p
  /\ submitButton (cache p') = submitButton (cache p)
  /\ (formFound (cache p) = false -> p' = p)
  /\ (formFound (cache p) = true ->
      (forall box, errorMessage (cache p) = Some box ->
         exists box', errorMessage (cache p') = Some box' /\ hidden_empty box')
      /\ (forall box, successMessage (cache p) = Some box ->
           exists box', successMessage (cache p') = Some box' /\ hidden_empty box')
      /\ (forall input, emailInput (cache p) = Some input ->
           exists input', emailInput (cache p') = Some input' /\ unmarked input')).
Proof.
  intros S. simpl in S. injection S as <-. cbn [moduleState inFlight cache with_cache].
  split; [reflexivity |]. split; [reflexivity |].
  split; [apply clearForm_button |]. unfold clearForm. split.
  - intros ->. destruct p. reflexivity.
  - intros ->. rewrite clearMessages_input.
    split; [| split].
    + intros box B. exists (hide box). split; [| apply hidden_box].
      destruct (emailInput (cache p));
        rewrite ?removeValidationState_error; now apply clearMessages_error.
    + intros box B. exists (hide box). split; [| apply hidden_box].
      destruct (emailInput (cache p));
        rewrite ?removeValidationState_success; now apply clearMessages_success.
    + intros input I. rewrite I. exists (made_unmarked input).
      split; [| apply made_unmarked_unmarked].
      apply (removeValidationState_eq EmailInput). cbn [element_of].
      now rewrite clearMessages_input.
Qed.

Lemma clearForm_effect_witness :
  exists p',
    page_step (after_action (handleFormSubmit valid_form 0 0) sample_page []) FormCleared
    = Some p'
    /\ isSubmitting (moduleState p') = true.
Proof.
  eexists. split; [reflexivity |].
  destruct (@clearForm_effect
              (after_action (handleFormSubmit valid_form 0 0) sample_page []) _ eq_refl)
    as (E & _).
  rewrite E. vm_compute. reflexivity.
Defined.

(** X24: a keystroke in an email input that carries [is-invalid] unmarks
    the input and hides and empties both message boxes, the success box
    too. *)
Theorem typing_clears_marked_error (e : elements) (input : element) :
  emailInput e = Some input ->
  has_class input (lit "is-invalid") = true ->
  (exists input', emailInput (handleEmailInput e) = Some input' /\ unmarked input')
  /\ (forall box, errorMessage e = Some box ->
        exists box', errorMessage (handleEmailInput e) = Some box' /\ hidden_empty box')
  /\ (forall box, successMessage e = Some box ->
        exists box', successMessage (handleEmailInput e) = Some box' /\ hidden_empty box').
Proof.
  intros H C. unfold handleEmailInput. rewrite H.
  unfold has_class in C. rewrite C. split; [| split].
  - exists (made_unmarked input). split; [| apply made_unmarked_unmarked].
    rewrite clearMessages_input. now apply (removeValidationState_eq EmailInput).
  - intros box B. exists (hide box). split; [| apply hidden_box].
    apply clearMessages_error. now rewrite removeValidationState_error.
  - intros box B. exists (hide box). split; [| apply hidden_box].
    apply clearMessages_success. now rewrite removeValidationState_success.
Qed.

Lemma typing_clears_marked_error_witness :
  exists input',
    emailInput (handleEmailInput
                  (setInvalidState EmailInput (lit "no") (cache sample_page))) = Some input'
    /\ unmarked input'.
Proof.
  apply (@typing_clears_marked_error
           (setInvalidState EmailInput (lit "no") (cache sample_page))
           (made_invalid sample_input));
    vm_compute; reflexivity.
Defined.

End PageProperties.

(** ** More about the submission path *)

Module SubmissionFacts.
Import JS Newsletter Spec Dom DomSpec EmailFacts StateFacts.

Lemma set_submissionCount_same s : set_submissionCount (submissionCount s) s = s.
Proof. destruct s. reflexivity. Qed.

(** A check that rejects leaves the state as it is, when the maximum is
    positive. *)
Lemma rejecting_check_keeps_state now s :
  (0 < maxSubmissionsPerWindow s)%Z ->
  fst (checkRateLimit now s) = false ->
  snd (checkRateLimit now s) = s.
Proof.
  intros M. rewrite checkRateLimit_eq. cbn [fst snd]. intros H.
  apply negb_false_iff, Z.leb_le in H.
  unfold count_after_reset in *.
  destruct (rateLimitWindow s <? now - lastSubmissionTime s)%Z; [lia |].
  apply set_submissionCount_same.
Qed.

Lemma handleFormSubmit_pending w f tv tc :
  pending (snd (handleFormSubmit f tv tc w)) = pending w
  \/ exists data,
       validateForm f tv = Normal (Valid data)
       /\ pending (snd (handleFormSubmit f tv tc w)) = pending w ++ [data].
Proof.
  rewrite handleFormSubmit_eq.
  destruct (isSubmitting (st w)); [now left |].
  destruct (validateForm f tv) as [[err | data] | e]; try (now left).
  destruct (fst (checkRateLimit tc (st w))); [| now left].
  right. now exists data.
Qed.

Lemma validateForm_valid_email f now data :
  validateForm f now = Normal (Valid data) ->
  isValidEmail (VString (email data)) = Normal true
  /\ source data = lit "landing_page".
Proof.
  unfold validateForm. intros H.
  destruct (isValidEmail_returns (trim (emailValue f))) as (valid & E).
  rewrite E in H.
  destruct (truthy (VString (trim (emailValue f)))); cbn [negb cbind] in H;
    [| discriminate].
  destruct valid; cbn [negb] in H; [| discriminate].
  destruct (privacyCheckbox f) as [[|]|]; try discriminate;
    injection H as <-; split; (exact E || reflexivity).
Qed.

Lemma invariant_same w w' :
  st w' = st w -> pending w' = pending w -> invariant w -> invariant w'.
Proof.
  intros Es Ep [W M C I B]. constructor; rewrite ?Es, ?Ep; assumption.
Qed.

Lemma page_step_invariant p ev p' :
  invariant (world_of p) -> page_step p ev = Some p' -> invariant (world_of p').
Proof.
  intros A S. destruct ev as [f tv tc | o now | value | | checked |]; simpl in S.
  - destruct (attached FormOnSubmit p); [| discriminate]. injection S as <-.
    apply (@invariant_same (snd (handleFormSubmit f tv tc (world_of p))));
      [reflexivity | reflexivity |].
    apply (@invariant_step (world_of p) (FormSubmit f tv tc)); [exact A | reflexivity].
  - destruct (inFlight p) as [|d others] eqn:Q; [discriminate |]. injection S as <-.
    apply (@invariant_same
             (snd (submitForm_resume o now
                     {| st := moduleState p; pending := others; ui := [] |})));
      [reflexivity | reflexivity |].
    apply (@invariant_step (world_of p) (TransportSettles o now)); [exact A |].
    unfold world_of. simpl. rewrite Q. reflexivity.
  - destruct (attached EmailOnBlur p); [| discriminate].
    destruct (handleEmailBlur value (cache p)); injection S as <-; exact A.
  - destruct (attached EmailOnInput p); [| discriminate]. injection S as <-. exact A.
  - destruct (attached PrivacyOnChange p); [| discriminate]. injection S as <-. exact A.
  - injection S as <-. exact A.
Qed.

Lemma init_invariant d : invariant (world_of (init d fresh_page)).
Proof.
  unfold init. cbn [fresh_page moduleState initial_state isInitialized].
  destruct d as [content|]; cbn [cacheElements formFound negb];
    constructor; cbn; try reflexivity; try lia; try discriminate.
Qed.

End SubmissionFacts.

(** ** The submission path, further *)

Section SubmissionPath.
  Import JS Newsletter Spec Examples Dom DomSpec PageExamples.
  Import EmailFacts StateFacts PageFacts SubmissionFacts.
  Local Open Scope Z_scope.

(** X18: in a reachable world, a form submission that is not accepted
    (the guard is set, or the form is invalid, or the rate limit is
    reached) changes neither the module state nor the pending transport
    calls: a rejected attempt does not move [lastSubmissionTime] or the
    count, so it does not prolong the lock-out. *)
Theorem unaccepted_submission_changes_nothing
    (w : world) (f : form) (tv tc : Z) :
  reachable w ->
  accepted w f tv tc = false ->
  st (snd (handleFormSubmit f tv tc w)) = st w
  /\ pending (snd (handleFormSubmit f tv tc w)) = pending w.
Proof.
  intros R A. pose proof (reachable_invariant R) as I.
  pose proof (@accepted_valid w f tv tc) as Acc.
  rewrite handleFormSubmit_eq.
  destruct (isSubmitting (st w)) eqn:G; [now split |].
  destruct (validateForm f tv) as [[err | data] | e]; try (now split).
  destruct (fst (checkRateLimit tc (st w))) eqn:C.
  - rewrite (Acc data eq_refl eq_refl eq_refl) in A. discriminate.
  - cbn [snd st pending]. split; [| reflexivity].
    apply rejecting_check_keeps_state; [| exact C]. rewrite (inv_max I). lia.
Qed.

Lemma unaccepted_submission_changes_nothing_witness :
  st (snd (handleFormSubmit valid_form 50000 50000 subscribed_thrice)) = st subscribed_thrice.
Proof.
  apply (@unaccepted_submission_changes_nothing subscribed_thrice valid_form 50000 50000).
  - exists (round ok 0 1000 ++ round ok 20000 21000 ++ round ok 40000 41000).
    vm_compute. reflexivity.
  - vm_compute. reflexivity.
Defined.

(** X19: in a reachable world a form submission is accepted exactly when
    no submission is in flight, the form is valid, and either fewer than
    3 submissions are counted or more than 60000 ms have passed since the
    last one. *)
Theorem acceptance_criterion (w : world) (f : form) (tv tc : Z) :
  reachable w ->
  (accepted w f tv tc = true <->
   isSubmitting (st w) = false
   /\ (exists data, validateForm f tv = Normal (Valid data))
   /\ (submissionCount (st w) < 3 \/ 60000 < tc - lastSubmissionTime (st w))).
Proof.
  intros R. pose proof (reachable_invariant R) as I.
  assert (Check : fst (checkRateLimit tc (st w)) = true <->
                  submissionCount (st w) < 3 \/ 60000 < tc - lastSubmissionTime (st w)).
  { rewrite checkRateLimit_eq. cbn [fst]. rewrite negb_true_iff, Z.leb_gt.
    unfold count_after_reset. rewrite (inv_window I), (inv_max I).
    destruct (Z.ltb_spec 60000 (tc - lastSubmissionTime (st w))); lia. }
  split.
  - intros A. apply accepted_true in A as (G & C & data & V & _).
    split; [exact G |]. split; [now exists data | now apply Check].
  - intros (G & (data & V) & C).
    apply accepted_valid with (data := data); [exact G | exact V | now apply Check].
Qed.

Lemma acceptance_criterion_witness :
  accepted subscribed_thrice valid_form 101001 101001 = true.
Proof.
  apply (@acceptance_criterion subscribed_thrice valid_form 101001 101001).
  - exists (round ok 0 1000 ++ round ok 20000 21000 ++ round ok 40000 41000).
    vm_compute. reflexivity.
  - split; [reflexivity |]. split.
    + eexists. vm_compute. reflexivity.
    + right. vm_compute. reflexivity.
Defined.

(** X20: only validated data reach the transport: in every reachable
    world, each pending transport call carries an email that
    [validateEmail] accepts and the source tag ["landing_page"]. *)
Theorem pending_data_validated (w : world) :
  reachable w ->
  Forall (fun data =>
            validateEmail (VString (email data)) = Normal true
            /\ source data = lit "landing_page") (pending w).
Proof.
  intros R. induction R as [|w e w' R IH S] using reachable_ind.
  - constructor.
  - destruct e as [f tv tc | o now]; simpl in S.
    + injection S as <-.
      destruct (handleFormSubmit_pending w f tv tc) as [-> | (data & V & ->)];
        [exact IH |].
      apply Forall_app. split; [exact IH |].
      constructor; [| constructor].
      now apply (validateForm_valid_email f tv).
    + destruct (pending w) as [|d others] eqn:P; [discriminate |]. injection S as <-.
      destruct (submitForm_resume_eq o now {| st := st w; pending := others; ui := ui w |})
        as (_ & _ & ->).
      now inversion IH.
Qed.

Lemma pending_data_validated_witness :
  Forall (fun data =>
            validateEmail (VString (email data)) = Normal true
            /\ source data = lit "landing_page")
    (pending (world_after [FormSubmit valid_form 0 0])).
Proof.
  apply pending_data_validated.
  exists [FormSubmit valid_form 0 0]. reflexivity.
Defined.

(** X21: the guard and the limit hold of the whole page: after [init] on
    any document and any sequence of submissions, settlements, blurs,
    keystrokes, checkbox changes and calls of [clearForm], the count is
    between 0 and 3, at most one transport call is pending, and
    [isSubmitting] is set exactly while one is. *)
Theorem page_keeps_guard_and_limit (d : document) (events : list page_event) (p : page) :
  page_run (init d fresh_page) events = Some p ->
  0 <= submissionCount (moduleState p) <= 3
  /\ (length (inFlight p) <= 1)%nat
  /\ (isSubmitting (moduleState p) = true <-> inFlight p <> []).
Proof.
  intros R.
  assert (I : invariant (world_of p)).
  { apply (@page_run_preserves (fun q => invariant (world_of q)))
      with (events := events) (p := init d fresh_page); [| apply init_invariant | exact R].
    intros q ev q' Iq S. eapply page_step_invariant; eassumption. }
  destruct I as [_ _ C Idle Busy]. cbn [world_of st pending] in *.
  split; [exact C |].
  destruct (isSubmitting (moduleState p)) eqn:G.
  - destruct (Busy eq_refl) as (_ & data & ->). simpl.
    split; [lia | split; [discriminate | reflexivity]].
  - rewrite (Idle eq_refl). simpl.
    split; [lia | split; [discriminate | congruence]].
Qed.

Lemma page_keeps_guard_and_limit_witness :
  exists p,
    page_run (init sample_document fresh_page)
      [Submitted valid_form 0 0; Blurred (lit "x"); FormCleared] = Some p
    /\ isSubmitting (moduleState p) = true
    /\ (length (inFlight p) <= 1)%nat.
Proof.
  eexists. split; [vm_compute; reflexivity |].
  split.
  - reflexivity.
  - apply (@page_keeps_guard_and_limit sample_document
             [Submitted valid_form 0 0; Blurred (lit "x"); FormCleared]).
    vm_compute. reflexivity.
Defined.

End SubmissionPath.
